(** * Raven UI components: RetractVote, ChatInput, AddChannelMemberModal

    A shallow embedding of the three React components of
    [raven-app/src/components/feature] and of the event handlers they
    install.  Handlers are programs over a signature of effects (network
    calls, prop callbacks, state setters, toasts); the browser, the SDK
    and the parent component are the environment that answers them. *)

From Stdlib Require Import List NArith ZArith Bool Lia String Ascii.
From ExtLib Require Import Structures.Monad.
Import ListNotations.
Import MonadNotation.
Local Open Scope monad_scope.

Set Implicit Arguments.
Set Warnings "-register-all".

(* ===================================================================== *)
(** ** JavaScript values *)
(* ===================================================================== *)

Module Js.

(** A JavaScript string is a sequence of UTF-16 code units. *)
Definition jsstring := list N.

(** The code units of an ASCII literal of the source. *)
Definition lit (s : string) : jsstring :=
  map N_of_ascii (list_ascii_of_string s).

(** [s.length === 0] *)
Definition length_is_zero (s : jsstring) : bool :=
  match s with [] => true | _ :: _ => false end.

(** [a === b] on strings. *)
Definition string_eqb (a b : jsstring) : bool :=
  if list_eq_dec N.eq_dec a b then true else false.

(** The values that occur in the props, the call parameters and
    the fetched records of these components.  Numbers are the integer flags
    of the backend records ([0 | 1]). *)
Inductive jsval :=
| JUndefined
| JNull
| JBool (b : bool)
| JNum (z : Z)
| JStr (s : jsstring)
| JArr (items : list jsval)
| JObj (props : list (jsstring * jsval)).

(** ToBoolean, as used by [c ? a : b] and [&&]. *)
Definition truthy (v : jsval) : bool :=
  match v with
  | JUndefined | JNull => false
  | JBool b => b
  | JNum z => negb (z =? 0)%Z
  | JStr s => negb (length_is_zero s)
  | JArr _ | JObj _ => true
  end.

(** An optional string property ([poll_id?: string]) read as a value. *)
Definition of_opt_string (o : option jsstring) : jsval :=
  match o with Some s => JStr s | None => JUndefined end.

(** ToString of an optional string, as a template literal does it. *)
Definition template_string (o : option jsstring) : jsstring :=
  match o with Some s => s | None => lit "undefined" end.

(** A property read that may have produced [undefined]. *)
Definition or_undefined (o : option jsval) : jsval :=
  match o with Some v => v | None => JUndefined end.

(** Optional chaining [o?.f]. *)
Definition opt_chain {A B} (o : option A) (f : A -> option B) : option B :=
  match o with Some a => f a | None => None end.

End Js.
Import Js.

(* ===================================================================== *)
(** ** JSON.stringify on objects with string-valued properties *)
(* ===================================================================== *)

Module JSON.

Definition is_leading_surrogate (c : N) : bool :=
  ((55296 <=? c) && (c <=? 56319))%N.

Definition is_trailing_surrogate (c : N) : bool :=
  ((56320 <=? c) && (c <=? 57343))%N.

(** One lowercase hexadecimal digit, as a code unit. *)
Definition hex_digit (d : N) : N :=
  (if d <? 10 then 48 + d else 87 + d)%N.

(** [UnicodeEscape(C)]: backslash, [u], four lowercase hex digits. *)
Definition UnicodeEscape (c : N) : list N :=
  [92; 117;
   hex_digit ((c / 4096) mod 16); hex_digit ((c / 256) mod 16);
   hex_digit ((c / 16) mod 16); hex_digit (c mod 16)]%N.

(** The table of two-character escapes of QuoteJSONString: backspace, tab,
    line feed, form feed, carriage return, double quote, backslash. *)
Definition short_escape (c : N) : option N :=
  match c with
  | 8 => Some 98
  | 9 => Some 116
  | 10 => Some 110
  | 12 => Some 102
  | 13 => Some 114
  | 34 => Some 34
  | 92 => Some 92
  | _ => None
  end%N.

(** The body of QuoteJSONString: the code points of the string are visited
    in order; a surrogate pair is copied, a lone surrogate and a control
    character are escaped. *)
Fixpoint quote_units (s : jsstring) : list N :=
  match s with
  | [] => []
  | c :: rest =>
      match short_escape c with
      | Some e => 92%N :: e :: quote_units rest
      | None =>
          if (c <? 32)%N then UnicodeEscape c ++ quote_units rest
          else if is_leading_surrogate c then
            match rest with
            | d :: rest' =>
                if is_trailing_surrogate d then c :: d :: quote_units rest'
                else UnicodeEscape c ++ quote_units rest
            | [] => UnicodeEscape c ++ quote_units rest
            end
          else if is_trailing_surrogate c then
            UnicodeEscape c ++ quote_units rest
          else c :: quote_units rest
      end
  end.

(** How the first code point of a string is quoted: by a two-character
    escape, by a [\u] escape, as the unit itself, or as a surrogate pair. *)
Inductive first_quoted (c : N) (rest : jsstring) : Prop :=
| quoted_short e :
    short_escape c = Some e ->
    quote_units (c :: rest) = 92%N :: e :: quote_units rest ->
    first_quoted c rest
| quoted_unicode :
    (c < 65536)%N ->
    quote_units (c :: rest) = UnicodeEscape c ++ quote_units rest ->
    first_quoted c rest
| quoted_unit :
    c <> 92%N -> is_leading_surrogate c = false ->
    quote_units (c :: rest) = c :: quote_units rest ->
    first_quoted c rest
| quoted_pair d rest' :
    rest = d :: rest' -> is_leading_surrogate c = true ->
    quote_units (c :: rest) = c :: d :: quote_units rest' ->
    first_quoted c rest.

Definition QuoteJSONString (s : jsstring) : jsstring :=
  34%N :: quote_units s ++ [34%N].

(** The members of SerializeJSONObject, separated by commas, in property
    order, without gap. *)
Fixpoint members (props : list (jsstring * jsstring)) : jsstring :=
  match props with
  | [] => []
  | [(k, v)] => QuoteJSONString k ++ 58%N :: QuoteJSONString v
  | (k, v) :: more =>
      QuoteJSONString k ++ 58%N :: QuoteJSONString v ++ 44%N :: members more
  end.

(** [JSON.stringify(o)] for an object literal whose properties are
    strings. *)
Definition stringify (props : list (jsstring * jsstring)) : jsstring :=
  123%N :: members props ++ [125%N].

(** A string whose surrogates all come in pairs, leading then trailing. *)
Fixpoint well_formed_utf16 (s : jsstring) : bool :=
  match s with
  | [] => true
  | c :: rest =>
      if is_leading_surrogate c then
        match rest with
        | d :: rest' => is_trailing_surrogate d && well_formed_utf16 rest'
        | [] => false
        end
      else if is_trailing_surrogate c then false
      else well_formed_utf16 rest
  end.

(** A code unit that QuoteJSONString neither replaces by a two-character
    escape nor by a [\u] escape for being a control character. *)
Definition printable_unit (c : N) : bool :=
  match short_escape c with
  | Some _ => false
  | None => negb (c <? 32)%N
  end.

(** The strings that need no escape at all. *)
Definition needs_no_escape (s : jsstring) : bool :=
  forallb printable_unit s && well_formed_utf16 s.

End JSON.

(* ===================================================================== *)
(** ** Effects, promises and their environment *)
(* ===================================================================== *)

(** The state in which a promise settles. *)
Inductive settled (A : Type) :=
| Fulfilled (value : A)
| Rejected (reason : jsval).
Arguments Rejected {A} reason.

(** The second argument of [fetch]. *)
Record RequestInit := {
  method : jsstring;
  headers : list (jsstring * jsstring);
  body : jsstring
}.

(** What a fulfilled [fetch] hands over; the components never read it. *)
Record Response := { status : N }.

(** The argument of [toast]. *)
Record ToastProps := {
  title : jsstring;
  variant : jsstring;
  duration : N
}.

(** The SWR options passed to [useFrappeGetCall]. *)
Record SWRConfiguration := {
  revalidateOnFocus : bool;
  revalidateIfStale : bool;
  revalidateOnReconnect : bool
}.

(** What a data-fetching hook of the SDK returns at a render: the payload
    once it is there, and the error of the last attempt. *)
Record SWRResponse (T : Type) := {
  data : option T;
  error : option jsval
}.

(** Everything the components ask of their surroundings: the browser
    ([fetch], [console.log], the rejection tracker), the SDK hooks, the
    toast hook, React's state setters, the form library and the callbacks
    received as props.  The index is the type of the answer. *)
Inductive eff : Type -> Type :=
| fetch (url : jsstring) (init : RequestInit) : eff (settled Response)
| useFrappeGetCall (T : Type) (api : jsstring) (params : jsval)
    (swrKey : jsstring) (options : SWRConfiguration) : eff (SWRResponse T)
| frappePostCall (api : jsstring) (params : jsval) : eff (settled jsval)
| addMessage (text user : jsstring) : eff (settled unit)
| setText (value : jsstring) : eff unit
| toast (props : ToastProps) : eff unit
| console_log (args : list jsval) : eff unit
| onClose : eff unit
| form_reset : eff unit
| form_setValue (value : option (list jsstring)) : eff unit
| unhandledrejection (reason : jsval) : eff unit.

(** A handler or a render: a finite tree of effects. *)
Inductive prog (R : Type) : Type :=
| Ret (r : R)
| Vis (X : Type) (e : eff X) (k : X -> prog R).
Arguments Ret {R} r.
Arguments Vis {R X} e k.

Fixpoint pbind {A B} (p : prog A) (f : A -> prog B) : prog B :=
  match p with
  | Ret a => f a
  | Vis e k => Vis e (fun x => pbind (k x) f)
  end.

#[global] Instance Monad_prog : Monad prog :=
  {| ret := @Ret; bind := @pbind |}.

Definition trigger {X} (e : eff X) : prog X := Vis e Ret.

(** *** Promise chains *)

(** [p.then(f)]: [f] runs on fulfilment and its promise is adopted; a
    rejection passes through. *)
Definition then_ {A B} (p : prog (settled A)) (f : A -> prog (settled B))
  : prog (settled B) :=
  x <- p ;;
  match x with
  | Fulfilled a => f a
  | Rejected r => ret (Rejected r)
  end.

(** [p.catch(h)]: [h] runs on rejection; a fulfilment passes through. *)
Definition catch_ {A} (p : prog (settled A)) (h : jsval -> prog (settled A))
  : prog (settled A) :=
  x <- p ;;
  match x with
  | Fulfilled a => ret (Fulfilled a)
  | Rejected r => h r
  end.

(** A callback with a block body and no [return]: it runs and the promise
    of the chain fulfils with [undefined]. *)
Definition returning_undefined (p : prog unit) : prog (settled unit) :=
  p ;; ret (Fulfilled tt).

(** A promise used as an expression statement: nobody holds it, so a
    rejection reaches the host's rejection tracker. *)
Definition floating {A} (p : prog (settled A)) : prog unit :=
  x <- p ;;
  match x with
  | Fulfilled _ => ret tt
  | Rejected r => trigger (unhandledrejection r)
  end.

(** *** Traces *)

(** One effect together with the answer it received. *)
Record event := Ev { ev_type : Type; ev_eff : eff ev_type; ev_ans : ev_type }.
Arguments Ev {ev_type} ev_eff ev_ans.

Definition trace := list event.

(** The effects whose answer is a promise: control returns to the event
    loop until it settles, and the user may go on typing. *)
Definition awaits {X} (e : eff X) : bool :=
  match e with
  | fetch _ _ | frappePostCall _ _ | addMessage _ _ => true
  | _ => false
  end.

(** The environment: how each effect is answered after a given history,
    and what the user types into the input while a promise is pending. *)
Record environment := {
  answer : trace -> forall X, eff X -> X;
  typed_meanwhile : trace -> list jsstring
}.

(** [ChatInput]'s [onChange]: the input's new value is stored. *)
Definition onChange (value : jsstring) : prog unit :=
  trigger (setText value).

Definition typed_events (values : list jsstring) : trace :=
  map (fun v => Ev (setText v) tt) values.

(** Running a program after history [hist]: the result and the events it
    adds to the history. *)
Fixpoint run {R} (env : environment) (p : prog R) (hist : trace)
  : R * trace :=
  match p with
  | Ret r => (r, [])
  | Vis e k =>
      let x := answer env hist e in
      let evs :=
        Ev e x ::
        (if awaits e then typed_events (typed_meanwhile env (hist ++ [Ev e x]))
         else []) in
      let (r, out) := run env (k x) (hist ++ evs) in
      (r, evs ++ out)
  end.

Definition emitted {R} (env : environment) (p : prog R) (hist : trace)
  : trace :=
  snd (run env p hist).

Definition result {R} (env : environment) (p : prog R) (hist : trace) : R :=
  fst (run env p hist).

(** State kept by React and by the form library, read off the history:
    the value last stored by [setText] ([useState('')] starts empty). *)
Definition text_of (tr : trace) : jsstring :=
  fold_left
    (fun t ev => match ev_eff ev with setText v => v | _ => t end)
    tr [].

(** The network calls among the effects: a raw [fetch], or a call that
    the SDK sends on its own session. *)
Inductive http_call :=
| ViaFetch (url : jsstring) (init : RequestInit)
| ViaSdkGet (api : jsstring) (params : jsval)
| ViaSdkPost (api : jsstring) (params : jsval).

Definition http_call_of {X} (e : eff X) : option http_call :=
  match e with
  | fetch url init => Some (ViaFetch url init)
  | useFrappeGetCall _ api params _ _ => Some (ViaSdkGet api params)
  | frappePostCall api params => Some (ViaSdkPost api params)
  | _ => None
  end.

(** The network calls of a trace, in order. *)
Fixpoint http_calls (tr : trace) : list http_call :=
  match tr with
  | [] => []
  | ev :: more =>
      match http_call_of (ev_eff ev) with
      | Some c => c :: http_calls more
      | None => http_calls more
      end
  end.

(** The toasts of a trace, in order. *)
Fixpoint toasts (tr : trace) : list ToastProps :=
  match tr with
  | [] => []
  | ev :: more =>
      match ev_eff ev with
      | toast p => p :: toasts more
      | _ => toasts more
      end
  end.

(** The rejections that reached the host's tracker. *)
Fixpoint unhandled (tr : trace) : list jsval :=
  match tr with
  | [] => []
  | ev :: more =>
      match ev_eff ev with
      | unhandledrejection r => r :: unhandled more
      | _ => unhandled more
      end
  end.

(** How the [fetch] calls of a trace settled. *)
Fixpoint fetch_results (tr : trace) : list (settled Response) :=
  match tr with
  | [] => []
  | Ev e x :: more =>
      match e in eff X return X -> list (settled Response) with
      | fetch _ _ => fun x => x :: fetch_results more
      | _ => fun _ => fetch_results more
      end x
  end.

(** How the SDK's POST calls of a trace settled. *)
Fixpoint post_results (tr : trace) : list (settled jsval) :=
  match tr with
  | [] => []
  | Ev e x :: more =>
      match e in eff X return X -> list (settled jsval) with
      | frappePostCall _ _ => fun x => x :: post_results more
      | _ => fun _ => post_results more
      end x
  end.

(** The invocations of the [addMessage] prop: arguments and outcome. *)
Fixpoint addMessage_calls (tr : trace)
  : list (jsstring * jsstring * settled unit) :=
  match tr with
  | [] => []
  | Ev e x :: more =>
      match e in eff X return X -> list (jsstring * jsstring * settled unit)
      with
      | addMessage t u => fun x => (t, u, x) :: addMessage_calls more
      | _ => fun _ => addMessage_calls more
      end x
  end.

(** An environment that settles every [fetch], every SDK POST and every
    [addMessage] in a fixed way, has nothing cached for a GET hook, and in
    which the user types [typing] whenever a promise is pending. *)
Definition scripted (fetch_r : settled Response) (post_r : settled jsval)
    (add_r : settled unit) (typing : list jsstring) : environment :=
  {| answer := fun _ X e =>
       match e in eff X return X with
       | fetch _ _ => fetch_r
       | useFrappeGetCall _ _ _ _ _ => {| data := None; error := None |}
       | frappePostCall _ _ => post_r
       | addMessage _ _ => add_r
       | setText _ => tt
       | toast _ => tt
       | console_log _ => tt
       | onClose => tt
       | form_reset => tt
       | form_setValue _ => tt
       | unhandledrejection _ => tt
       end;
     typed_meanwhile := fun _ => typing |}.

(* ===================================================================== *)
(** ** RetractVote.tsx: the context-menu action *)
(* ===================================================================== *)

Module RetractVote_tsx.

(** The fields of [Message] that the component reads. *)
Record Message := {
  name : jsstring;
  poll_id : option jsstring
}.

(** The field of the poll document that the component reads. *)
Record RavenPoll := { is_disabled : jsval }.

(** [Poll], generic in the shape of a vote: only the length of the list
    is read. *)
Record Poll (Vote : Type) := {
  poll : RavenPoll;
  current_user_votes : list Vote
}.

(** [{ message: Poll }], the payload of [get_poll]. *)
Record GetPollResponse (Vote : Type) := { message : option (Poll Vote) }.

(** The markup the component can return. *)
Inductive node :=
| ContextMenu_Item (onClick : prog (settled unit)) (disabled : bool)
    (children : list node)
| ContextMenu_Separator
| Flex (gap : jsstring) (children : list node)
| TiArrowBackOutline (size : jsstring)
| Text (s : jsstring)
| Fragment (children : list node).

(** [useFrappePostCall(api)] hands back [call]; nothing is sent until
    [call] is applied. *)
Definition useFrappePostCall (api : jsstring)
  : jsval -> prog (settled jsval) :=
  fun params => trigger (frappePostCall api params).

(** The two notifications of [onRetractVote]. *)
Definition vote_retracted : ToastProps :=
  {| title := lit "Vote retracted";
     variant := lit "accent";
     duration := 800 |}.

Definition could_not_retract : ToastProps :=
  {| title := lit "Could not retract vote";
     variant := lit "destructive";
     duration := 800 |}.

(** The argument of [call]: [{ poll_id: message?.poll_id }]. *)
Definition retract_params (message : option Message) : jsval :=
  JObj [(lit "poll_id", of_opt_string (opt_chain message poll_id))].

Definition onRetractVote (call : jsval -> prog (settled jsval))
    (message : option Message) : prog (settled unit) :=
  catch_
    (then_
       (call (retract_params message))
       (fun _ => returning_undefined (trigger (toast vote_retracted))))
    (fun _ => returning_undefined (trigger (toast could_not_retract))).

(** The handler that the menu item receives: [onRetractVote] with the
    [call] of [useFrappePostCall('raven.api.raven_poll.retract_vote')]. *)
Definition retract_vote_api : jsstring :=
  lit "raven.api.raven_poll.retract_vote".

Definition retract_handler (message : option Message) : prog (settled unit) :=
  onRetractVote (useFrappePostCall retract_vote_api) message.

Definition get_poll_api : jsstring := lit "raven.api.raven_poll.get_poll".

Section Component.

Variable Vote : Type.

(** [data && data.message?.current_user_votes.length > 0] *)
Definition render_condition (data : option (GetPollResponse Vote)) : bool :=
  match data with
  | None => false
  | Some d =>
      match message d with
      | None => false
      | Some p => (0 <? List.length (current_user_votes p))%nat
      end
  end.

(** [data.message?.poll.is_disabled ? true : false]; it is evaluated only
    under [render_condition], where [data] is an object. *)
Definition item_disabled (data : option (GetPollResponse Vote)) : bool :=
  if truthy
       (or_undefined
          (opt_chain data
             (fun d =>
                opt_chain (message d)
                  (fun p => Some (is_disabled (poll p))))))
  then true else false.

(** What the component returns once the hooks have answered. *)
Definition RetractVote_returns (message : option Message)
    (data : option (GetPollResponse Vote)) : option node :=
  if render_condition data then
    Some
      (Fragment
         [ContextMenu_Item (retract_handler message)
            (item_disabled data)
            [Flex (lit "2")
               [TiArrowBackOutline (lit "18");
                Text (lit "Retract vote")]];
          ContextMenu_Separator])
  else None.

(** The poll is fetched by [message_id] and cached under the poll's id. *)
Definition get_poll_hook (message : option Message)
  : eff (SWRResponse (GetPollResponse Vote)) :=
  useFrappeGetCall (GetPollResponse Vote)
    get_poll_api
    (JObj [(lit "message_id",
            of_opt_string (opt_chain message (fun m => Some (name m))))])
    (lit "poll_data_" ++ template_string (opt_chain message poll_id))
    {| revalidateOnFocus := false;
       revalidateIfStale := false;
       revalidateOnReconnect := false |}.

(** The component: only [data] is taken from what the hook returns. *)
Definition RetractVote (message : option Message) : prog (option node) :=
  swr <- trigger (get_poll_hook message) ;;
  ret (RetractVote_returns message (data swr)).

End Component.

(** The children of the menu item: an icon and the label. *)
Definition item_children : list node :=
  [Flex (lit "2") [TiArrowBackOutline (lit "18"); Text (lit "Retract vote")]].

(** A poll message, and the payload of a disabled poll on which the
    current user has cast one vote. *)
Definition sample_message : Message :=
  {| name := lit "msg-0001"; poll_id := Some (lit "poll-01") |}.

Definition sample_voted_disabled : GetPollResponse unit :=
  {| message := Some {| poll := {| is_disabled := JNum 1 |};
                        current_user_votes := [tt] |} |}.

(** The menu item of a rendered tree, when there is one. *)
Definition menu_item (o : option node)
  : option (prog (settled unit) * bool * list node) :=
  match o with
  | Some (Fragment (ContextMenu_Item h d c :: _)) => Some (h, d, c)
  | _ => None
  end.

End RetractVote_tsx.

(* ===================================================================== *)
(** ** The form library: [handleSubmit] *)
(* ===================================================================== *)

(** [handleSubmit(onValid)] validates the registered fields and passes
    their values to [onValid] when there is no error. *)
Definition handleSubmit {D} (validate : D -> bool) (onValid : D -> prog unit)
    (fieldValues : D) : prog unit :=
  if validate fieldValues then onValid fieldValues else ret tt.

(* ===================================================================== *)
(** ** ChatInput: the message box *)
(* ===================================================================== *)

Module ChatInput_tsx.

Definition user_id : jsstring := lit "patiladitya781@gmail.com".
Definition channel_id : jsstring := lit "862bf4d1ce".

Definition send_message_url : jsstring :=
  lit "http://localhost:8080/api/method/raven.messaging.doctype.message.message.send_message".

(** The second argument of the [fetch] of [onSubmit]. *)
Definition send_message_init (text : jsstring) : RequestInit :=
  {| method := lit "POST";
     headers := [(lit "Authorization", lit "token 70fc5baf0dbedeb:153d36b83606c05")];
     body := JSON.stringify [(lit "channel_id", channel_id);
                             (lit "user_id", user_id);
                             (lit "text", text)] |}.

(** What precedes the quoted text in the body of the request: the two
    literal properties and the key of the third. *)
Definition body_before_text : jsstring :=
  lit "{" ++ JSON.QuoteJSONString (lit "channel_id") ++ lit ":" ++
  JSON.QuoteJSONString channel_id ++ lit "," ++
  JSON.QuoteJSONString (lit "user_id") ++ lit ":" ++
  JSON.QuoteJSONString user_id ++ lit "," ++
  JSON.QuoteJSONString (lit "text") ++ lit ":".

(** [onSubmit], closed over the [text] of the render that created it.  The
    chain is not returned: the promise floats. *)
Definition onSubmit (text : jsstring) : prog unit :=
  floating
    (then_
       (then_
          (trigger (fetch send_message_url (send_message_init text)))
          (fun _ => trigger (addMessage text user_id)))
       (fun _ => returning_undefined (trigger (setText [])))).

(** What a render hands to the markup. *)
Record view := {
  input_value : jsstring;
  input_onChange : jsstring -> prog unit;
  button_isDisabled : bool;
  form_onSubmit : prog unit
}.

(** The component, as a function of the state held by [useState].  The
    form of [useForm()] has no registered field, so validation passes. *)
Definition ChatInput (text : jsstring) : view :=
  {| input_value := text;
     input_onChange := onChange;
     button_isDisabled := length_is_zero text;
     form_onSubmit :=
       handleSubmit (fun _ : unit => true) (fun _ => onSubmit text) tt |}.

(** A click on the submit button: a disabled button submits nothing. *)
Definition click_submit (v : view) : prog unit :=
  if button_isDisabled v then ret tt else form_onSubmit v.

(** The click, on the component rendered from the state that the history
    left. *)
Definition submit_clicked (hist : trace) : prog unit :=
  click_submit (ChatInput (text_of hist)).

End ChatInput_tsx.

(* ===================================================================== *)
(** ** Object literals with spread *)
(* ===================================================================== *)

Module Obj.

(** An object, as the sequence of property definitions that built it: an
    object literal defines its properties from left to right, and a later
    definition of a key replaces the value of an earlier one. *)
Definition props := list (jsstring * jsval).

(** [o[k]]: the last definition of [k], if there is one. *)
Fixpoint get (k : jsstring) (o : props) : option jsval :=
  match o with
  | [] => None
  | (k', v) :: later =>
      match get k later with
      | Some w => Some w
      | None => if string_eqb k' k then Some v else None
      end
  end.

(** [...x] where [x] is [cond && {...}]: a [false] spreads nothing. *)
Definition spread_if (cond : bool) (o : props) : props :=
  if cond then o else [].

End Obj.

(* ===================================================================== *)
(** ** AddChannelMemberModal.tsx *)
(* ===================================================================== *)

Module AddChannelMemberModal_tsx.

Record AddChannelMemberModalProps := {
  isOpen : bool;
  channel_name : jsstring;
  type : jsstring;
  channel_id : jsstring
}.

Record FormProps := { add_members : option (list jsstring) }.

(** [defaultValues] of [useForm<FormProps>]. *)
Definition defaultValues : FormProps := {| add_members := None |}.

(** The values of the form, read off the history: [reset()] restores the
    default values, the dropdown stores a selection. *)
Definition form_values (tr : trace) : FormProps :=
  fold_left
    (fun f ev =>
       match ev_eff ev with
       | form_reset => defaultValues
       | form_setValue v => {| add_members := v |}
       | _ => f
       end)
    tr defaultValues.

(** [methods.watch('add_members')] *)
Definition watch_add_members (f : FormProps) : option (list jsstring) :=
  add_members f.

(** [reset()] *)
Definition reset : prog unit := trigger form_reset.

(** The dependency array [[isOpen, reset]]: a flag and the identity of the
    function the form library returned at this render. *)
Definition deps := (bool * nat)%type.

Definition deps_changed (prev : option deps) (now : deps) : bool :=
  match prev with
  | None => true
  | Some (o, r) => negb (Bool.eqb o (fst now) && Nat.eqb r (snd now))
  end.

(** [useEffect(effect, deps)]: the effect runs after the first render and
    after every render whose dependencies differ from the previous ones. *)
Definition useEffect (effect : prog unit) (prev : option deps) (now : deps)
  : prog unit :=
  if deps_changed prev now then effect else ret tt.

Definition to_js_members (m : option (list jsstring)) : jsval :=
  match m with
  | None => JNull
  | Some l => JArr (map JStr l)
  end.

Definition to_js (f : FormProps) : jsval :=
  JObj [(lit "add_members", to_js_members (add_members f))].

Definition onSubmit (members : option (list jsstring)) (data : FormProps)
  : prog unit :=
  trigger (console_log [to_js data; to_js_members members]) ;;
  trigger onClose.

(** What a render hands to the markup and to React. *)
Record view := {
  modal_isOpen : bool;
  header_public : bool;
  header_channel : jsstring;
  form_onSubmit : FormProps -> prog unit;
  cancel_onClick : prog unit;
  effect : option deps -> prog unit
}.

Section Component.

(** The rules that the member dropdown registers for its field. *)
Variable validate : FormProps -> bool.

(** The identity of [reset] at this render. *)
Variable reset_id : nat.

Definition AddChannelMemberModal (props : AddChannelMemberModalProps)
    (form : FormProps) : view :=
  let members := watch_add_members form in
  {| modal_isOpen := isOpen props;
     header_public := string_eqb (type props) (lit "Public");
     header_channel := channel_name props;
     form_onSubmit := handleSubmit validate (onSubmit members);
     cancel_onClick := trigger onClose;
     effect := fun prev => useEffect reset prev (isOpen props, reset_id) |}.

End Component.

(** Whether the [isOpen] of this render differs from that of the previous
    one; the first render counts as a change. *)
Definition isOpen_changed (prev : option deps) (now : bool) : bool :=
  match prev with
  | None => true
  | Some (o, _) => negb (Bool.eqb o now)
  end.

(** A modal opened on a public channel, and the history of a user who
    picked a member at an earlier opening. *)
Definition sample_props : AddChannelMemberModalProps :=
  {| isOpen := true;
     channel_name := lit "general";
     type := lit "Public";
     channel_id := lit "general-01" |}.

Definition picked_alice : trace :=
  [Ev form_reset tt; Ev (form_setValue (Some [lit "alice@example.com"])) tt].

(** *** [customStyles] *)

(** The fields of [MemberOption] that the styles read. *)
Record MemberOption := {
  label : jsstring;
  image : jsval
}.

(** The second argument of the [option] style function. *)
Record OptionState := {
  isSelected : bool;
  data : MemberOption
}.

Record ChakraStylesConfig := {
  control : Obj.props -> Obj.props;
  menu : Obj.props -> Obj.props;
  option_ : Obj.props -> OptionState -> Obj.props;
  noOptionsMessage : Obj.props -> Obj.props
}.

Section CustomStyles.

(** The two avatar styles imported from the member dropdown. *)
Variable pfp : jsval -> Obj.props.
Variable fallbackPfp : jsstring -> Obj.props.

(** [(data.image && { ...pfp(data.image) }) || { ...fallbackPfp(data.label) }] *)
Definition avatar (d : MemberOption) : Obj.props :=
  if truthy (image d) then pfp (image d) else fallbackPfp (label d).

Definition customStyles : ChakraStylesConfig :=
  {| control := fun chakraStyles =>
       chakraStyles ++
       [(lit "backgroundColor", JStr (lit "white"));
        (lit "width", JStr (lit "100%"));
        (lit "fontSize", JStr (lit "sm"))];
     menu := fun chakraStyles =>
       chakraStyles ++
       [(lit "borderRadius", JStr (lit "md"));
        (lit "width", JStr (lit "100%"));
        (lit "borderWidth", JStr (lit "1px"))];
     option_ := fun chakraStyles state =>
       chakraStyles ++
       avatar (data state) ++
       [(lit "width", JStr (lit "100%"));
        (lit "fontSize", JStr (lit "sm"))] ++
       Obj.spread_if (isSelected state)
         [(lit "backgroundColor", JStr (lit "#E2E8F0"));
          (lit "color", JStr (lit "black"))];
     noOptionsMessage := fun chakraStyles =>
       chakraStyles ++
       [(lit "width", JStr (lit "100%"));
        (lit "fontSize", JStr (lit "sm"))] |}.

End CustomStyles.

(** *** Sessions of the modal *)

(** What can happen to a mounted modal: the parent renders it, the user
    picks members in the dropdown, presses Save or presses Cancel. *)
Inductive modal_event :=
| Rendered (props : AddChannelMemberModalProps) (reset_id : nat)
| Picked (value : option (list jsstring))
| SavePressed
| CancelPressed.

(** The props and the identity of [reset] at the last render. *)
Definition mounted := option (AddChannelMemberModalProps * nat).

Definition last_deps (m : mounted) : option deps :=
  match m with
  | Some (p, rid) => Some (isOpen p, rid)
  | None => None
  end.

Section Session.

Variable validate : FormProps -> bool.

(** What one event runs, on the modal as last rendered and with the values
    that the form holds. *)
Definition modal_step (m : mounted) (ev : modal_event) (hist : trace)
  : prog unit :=
  match ev with
  | Rendered p rid =>
      effect (AddChannelMemberModal validate rid p (form_values hist))
        (last_deps m)
  | Picked v => trigger (form_setValue v)
  | SavePressed =>
      match m with
      | Some (p, rid) =>
          form_onSubmit
            (AddChannelMemberModal validate rid p (form_values hist))
            (form_values hist)
      | None => ret tt
      end
  | CancelPressed =>
      match m with
      | Some (p, rid) =>
          cancel_onClick
            (AddChannelMemberModal validate rid p (form_values hist))
      | None => ret tt
      end
  end.

Definition modal_next (m : mounted) (ev : modal_event) : mounted :=
  match ev with
  | Rendered p rid => Some (p, rid)
  | _ => m
  end.

(** The events that a session adds to the history. *)
Fixpoint modal_session (env : environment) (evs : list modal_event)
    (m : mounted) (hist : trace) : trace :=
  match evs with
  | [] => []
  | ev :: more =>
      let out := emitted env (modal_step m ev hist) hist in
      out ++ modal_session env more (modal_next m ev) (hist ++ out)
  end.

End Session.

(** The modal as last rendered, after a sequence of events. *)
Definition mounted_after (m : mounted) (evs : list modal_event) : mounted :=
  fold_left modal_next evs m.

(** The selection that a sequence of events leaves when none of them
    resets the form: the last pick, or what was there before. *)
Definition last_pick (evs : list modal_event)
    (before : option (list jsstring)) : option (list jsstring) :=
  fold_left
    (fun acc ev => match ev with Picked v => v | _ => acc end)
    evs before.

(** An event other than a render with dependencies different from
    [now]. *)
Definition same_deps (now : deps) (ev : modal_event) : bool :=
  match ev with
  | Rendered p rid => Bool.eqb (isOpen p) (fst now) && Nat.eqb rid (snd now)
  | _ => true
  end.

End AddChannelMemberModal_tsx.

(* ===================================================================== *)
(** ** Scenarios *)
(* ===================================================================== *)

(** The reasons of the rejected promises of a list of settlements. *)
Fixpoint reasons {A} (l : list (settled A)) : list jsval :=
  match l with
  | [] => []
  | Fulfilled _ :: more => reasons more
  | Rejected r :: more => r :: reasons more
  end.

(** The toast that [onRetractVote] shows for a settlement of its call. *)
Definition retract_toast (x : settled jsval) : ToastProps :=
  match x with
  | Fulfilled _ => RetractVote_tsx.vote_retracted
  | Rejected _ => RetractVote_tsx.could_not_retract
  end.

(** The history of a user who typed "hi" into the message box. *)
Definition typed_hi : trace := [Ev (setText (lit "hi")) tt].

Definition failed_to_fetch : jsval := JStr (lit "TypeError: Failed to fetch").

(** The backend is unreachable: every network call rejects. *)
Definition offline : environment :=
  scripted (Rejected failed_to_fetch) (Rejected failed_to_fetch)
    (Fulfilled tt) [].

(** The backend answers, the parent's [addMessage] succeeds, and the user
    types "x" whenever a promise is pending. *)
Definition online : environment :=
  scripted (Fulfilled {| status := 200 |}) (Fulfilled JNull)
    (Fulfilled tt) [lit "x"].

(* ===================================================================== *)
(** ** Sessions *)
(* ===================================================================== *)

(** The cache keys under which the hooks of a trace keep their data. *)
Fixpoint swr_keys (tr : trace) : list jsstring :=
  match tr with
  | [] => []
  | ev :: more =>
      match ev_eff ev with
      | useFrappeGetCall _ _ _ key _ => key :: swr_keys more
      | _ => swr_keys more
      end
  end.

(** The fulfilled promises of a list of settlements. *)
Fixpoint fulfilments {A} (l : list (settled A)) : list A :=
  match l with
  | [] => []
  | Fulfilled a :: more => a :: fulfilments more
  | Rejected _ :: more => fulfilments more
  end.

(** What the user of the message box does: type, or click the button. *)
Inductive chat_event :=
| Typed (value : jsstring)
| SubmitClicked.

(** The handler that an event runs, on the component rendered from the
    state that the history left. *)
Definition chat_step (ev : chat_event) (hist : trace) : prog unit :=
  match ev with
  | Typed v =>
      ChatInput_tsx.input_onChange
        (ChatInput_tsx.ChatInput (text_of hist)) v
  | SubmitClicked => ChatInput_tsx.submit_clicked hist
  end.

(** The events that a session adds to the history; each handler runs
    until its promises have settled before the next event is taken. *)
Fixpoint chat_session (env : environment) (evs : list chat_event)
    (hist : trace) : trace :=
  match evs with
  | [] => []
  | ev :: more =>
      let out := emitted env (chat_step ev hist) hist in
      out ++ chat_session env more (hist ++ out)
  end.

Definition submit_clicks (evs : list chat_event) : nat :=
  List.length
    (filter (fun ev => match ev with SubmitClicked => true | _ => false end)
       evs).

(** [n] clicks on the "Retract vote" item, one after the other. *)
Fixpoint retract_clicks (env : environment) (n : nat)
    (message : option RetractVote_tsx.Message) (hist : trace) : trace :=
  match n with
  | O => []
  | S n' =>
      let out := emitted env (RetractVote_tsx.retract_handler message) hist in
      out ++ retract_clicks env n' message (hist ++ out)
  end.

(* ===================================================================== *)
(** ** JSON.stringify keeps the string apart *)
(* ===================================================================== *)

Section JsonFacts.

Import JSON.
Local Open Scope N_scope.

Lemma hex_digit_inj a b :
  a < 16 -> b < 16 -> hex_digit a = hex_digit b -> a = b.
Proof.
  unfold hex_digit. intros Ha Hb.
  destruct (N.ltb_spec a 10), (N.ltb_spec b 10); lia.
Qed.

Lemma UnicodeEscape_inj c d :
  c < 65536 -> d < 65536 -> UnicodeEscape c = UnicodeEscape d -> c = d.
Proof.
  intros Hc Hd H. unfold UnicodeEscape in H.
  injection H as H3 H2 H1 H0.
  apply hex_digit_inj in H3, H2, H1, H0; try (apply N.mod_lt; discriminate).
  replace (c / 4096) with (c / 16 / 16 / 16) in H3
    by (rewrite !N.Div0.div_div; reflexivity).
  replace (d / 4096) with (d / 16 / 16 / 16) in H3
    by (rewrite !N.Div0.div_div; reflexivity).
  replace (c / 256) with (c / 16 / 16) in H2
    by (rewrite !N.Div0.div_div; reflexivity).
  replace (d / 256) with (d / 16 / 16) in H2
    by (rewrite !N.Div0.div_div; reflexivity).
  assert (DM : forall x, x = 16 * (x / 16) + x mod 16 /\ x mod 16 < 16)
    by (intros x; split; [apply N.div_mod; discriminate
                         |apply N.mod_lt; discriminate]).
  pose proof (DM c). pose proof (DM (c / 16)). pose proof (DM (c / 16 / 16)).
  pose proof (DM (c / 16 / 16 / 16)).
  pose proof (DM d). pose proof (DM (d / 16)). pose proof (DM (d / 16 / 16)).
  pose proof (DM (d / 16 / 16 / 16)).
  clear DM. lia.
Qed.

Lemma short_escape_cases c :
  match short_escape c with
  | Some e => In (c, e) [(8, 98); (9, 116); (10, 110); (12, 102); (13, 114); (34, 34); (92, 92)]
  | None => ~ In c [8; 9; 10; 12; 13; 34; 92]
  end.
Proof.
  destruct c as [|p]; [cbn; intuition discriminate|].
  do 7 (try destruct p as [p|p|]); cbn; intuition discriminate.
Qed.

Lemma surrogate_bounds c :
  (is_leading_surrogate c = true -> 55296 <= c <= 56319) /\
  (is_trailing_surrogate c = true -> 56320 <= c <= 57343).
Proof.
  unfold is_leading_surrogate, is_trailing_surrogate.
  split; intros H; apply andb_prop in H; destruct H as [H1 H2];
    apply N.leb_le in H1, H2; lia.
Qed.

(** The defining equation of [quote_units] at a non-empty string. *)
Lemma quote_units_cons c rest :
  quote_units (c :: rest) =
  match short_escape c with
  | Some e => 92 :: e :: quote_units rest
  | None =>
      if c <? 32 then UnicodeEscape c ++ quote_units rest
      else if is_leading_surrogate c then
        match rest with
        | d :: rest' =>
            if is_trailing_surrogate d then c :: d :: quote_units rest'
            else UnicodeEscape c ++ quote_units rest
        | [] => UnicodeEscape c ++ quote_units rest
        end
      else if is_trailing_surrogate c then UnicodeEscape c ++ quote_units rest
      else c :: quote_units rest
  end.
Proof. destruct rest; reflexivity. Qed.

Lemma first_quoted_cases c rest : first_quoted c rest.
Proof.
  pose proof (short_escape_cases c) as Hs.
  pose proof (surrogate_bounds c) as [Hl Ht].
  pose proof (quote_units_cons c rest) as Hq.
  destruct (short_escape c) as [e|] eqn:He.
  - now apply quoted_short with e.
  - destruct (c <? 32) eqn:Hlt.
    + apply N.ltb_lt in Hlt. apply quoted_unicode; [lia|trivial].
    + destruct (is_leading_surrogate c) eqn:Hlead.
      * destruct rest as [|d rest'].
        -- apply quoted_unicode; [lia|trivial].
        -- destruct (is_trailing_surrogate d) eqn:Hd.
           ++ now apply quoted_pair with d rest'.
           ++ apply quoted_unicode; [lia|trivial].
      * destruct (is_trailing_surrogate c) eqn:Htrail.
        -- apply quoted_unicode; [lia|trivial].
        -- apply quoted_unit; trivial.
           intros ->. apply Hs. cbn. tauto.
Qed.

Lemma short_escape_inj c d e :
  short_escape c = Some e -> short_escape d = Some e -> c = d.
Proof.
  intros Hc Hd.
  pose proof (short_escape_cases c) as H1. rewrite Hc in H1.
  pose proof (short_escape_cases d) as H2. rewrite Hd in H2.
  cbn in H1, H2.
  repeat destruct H1 as [H1|H1]; try contradiction;
    repeat destruct H2 as [H2|H2]; try contradiction; congruence.
Qed.

Lemma short_escape_not_u c e : short_escape c = Some e -> e <> 117.
Proof.
  intros Hc. pose proof (short_escape_cases c) as H1. rewrite Hc in H1.
  cbn in H1.
  repeat destruct H1 as [H1|H1]; try contradiction; congruence.
Qed.

Lemma quote_units_nil s : quote_units s = [] -> s = [].
Proof.
  destruct s as [|c rest]; [reflexivity|].
  destruct (first_quoted_cases c rest) as [e _ ->| _ ->| _ _ ->|d r _ _ ->];
    discriminate.
Qed.

Lemma quote_units_inj_bounded (n : nat) :
  forall s1 s2, (List.length s1 <= n)%nat ->
    quote_units s1 = quote_units s2 -> s1 = s2.
Proof.
  induction n as [|n IH]; intros s1 s2 Hlen Heq.
  - destruct s1; [|cbn in Hlen; lia].
    symmetry. apply quote_units_nil. now rewrite <- Heq.
  - destruct s1 as [|c1 r1].
    { symmetry. apply quote_units_nil. now rewrite <- Heq. }
    destruct s2 as [|c2 r2].
    { apply quote_units_nil. now rewrite Heq. }
    cbn [List.length] in Hlen.
    destruct (first_quoted_cases c1 r1)
      as [e1 He1 Hq1|Hb1 Hq1|Hn1 Hs1 Hq1|d1 r1' -> Hs1 Hq1];
    destruct (first_quoted_cases c2 r2)
      as [e2 He2 Hq2|Hb2 Hq2|Hn2 Hs2 Hq2|d2 r2' -> Hs2 Hq2];
    rewrite Hq1, Hq2 in Heq; clear Hq1 Hq2.
    (* short / short *)
    + injection Heq as Hee Hrr. subst e2.
      f_equal; [now apply short_escape_inj with e1|apply IH; [lia|trivial]].
    + exfalso. injection Heq as Hu _. now apply (@short_escape_not_u c1 e1).
    + exfalso. injection Heq as Hc _. congruence.
    + exfalso. injection Heq as Hc _. subst c2. discriminate Hs2.
    (* unicode / ... *)
    + exfalso. injection Heq as Hu _. symmetry in Hu.
      now apply (@short_escape_not_u c2 e2).
    + assert (Hsplit : UnicodeEscape c1 = UnicodeEscape c2 /\
                       quote_units r1 = quote_units r2).
      { unfold UnicodeEscape in *. cbn [app] in Heq.
        injection Heq as -> -> -> -> Hrr. now split. }
      destruct Hsplit as [Hu Hrr].
      f_equal; [now apply UnicodeEscape_inj|apply IH; [lia|trivial]].
    + exfalso. injection Heq as Hc _. congruence.
    + exfalso. injection Heq as Hc _. subst c2. discriminate Hs2.
    (* unit / ... *)
    + exfalso. injection Heq as Hc _. congruence.
    + exfalso. injection Heq as Hc _. congruence.
    + injection Heq as -> Hrr. f_equal. apply IH; [lia|trivial].
    + exfalso. injection Heq as -> _. congruence.
    (* pair / ... *)
    + exfalso. injection Heq as Hc _. subst c1. discriminate Hs1.
    + exfalso. injection Heq as Hc _. subst c1. discriminate Hs1.
    + exfalso. injection Heq as -> _. congruence.
    + injection Heq as -> -> Hrr. do 2 f_equal.
      apply IH; [cbn [List.length] in Hlen; lia|trivial].
Qed.

Theorem quote_units_inj s1 s2 : quote_units s1 = quote_units s2 -> s1 = s2.
Proof. apply quote_units_inj_bounded with (List.length s1). lia. Qed.

Lemma QuoteJSONString_inj s1 s2 :
  QuoteJSONString s1 = QuoteJSONString s2 -> s1 = s2.
Proof.
  unfold QuoteJSONString. intros H. injection H as H.
  apply app_inv_tail in H. now apply quote_units_inj.
Qed.

Lemma members_cons k v p more :
  members ((k, v) :: p :: more) =
  QuoteJSONString k ++ 58 :: QuoteJSONString v ++ 44 :: members (p :: more).
Proof. destruct p. reflexivity. Qed.

Lemma cons_tail_eq (a : N) (l1 l2 : list N) : a :: l1 = a :: l2 -> l1 = l2.
Proof. intros H. now injection H. Qed.

(** The serialization of an object determines its last property. *)
Lemma members_last_inj props k v1 v2 :
  members (props ++ [(k, v1)]) = members (props ++ [(k, v2)]) -> v1 = v2.
Proof.
  induction props as [|[k' v'] more IH]; cbn [app].
  - cbn [members]. intros H. apply app_inv_head, cons_tail_eq in H.
    now apply QuoteJSONString_inj.
  - destruct more as [|p more']; cbn [app] in *; rewrite !members_cons;
      intros H; apply app_inv_head, cons_tail_eq in H;
      apply app_inv_head, cons_tail_eq in H; now apply IH.
Qed.

Lemma stringify_last_inj props k v1 v2 :
  stringify (props ++ [(k, v1)]) = stringify (props ++ [(k, v2)]) -> v1 = v2.
Proof.
  unfold stringify. intros H. apply cons_tail_eq, app_inv_tail in H.
  now apply members_last_inj with props k.
Qed.

End JsonFacts.

Example stringify_sample :
  JSON.stringify [(lit "a", [120; 34; 121]%N)]
  = [123; 34; 97; 34; 58; 34; 120; 92; 34; 121; 34; 125]%N.
Proof. reflexivity. Qed.

(* ===================================================================== *)
(** ** Facts about traces *)
(* ===================================================================== *)

Section TraceFacts.

Lemma http_calls_app (a b : trace) :
  http_calls (a ++ b) = http_calls a ++ http_calls b.
Proof.
  induction a as [|ev a IH]; simpl; [reflexivity|].
  destruct (http_call_of (ev_eff ev)); simpl; now rewrite IH.
Qed.

Lemma toasts_app (a b : trace) : toasts (a ++ b) = toasts a ++ toasts b.
Proof.
  induction a as [|[X e x] a IH]; simpl; [reflexivity|].
  destruct e; simpl; now rewrite IH.
Qed.

Lemma unhandled_app (a b : trace) :
  unhandled (a ++ b) = unhandled a ++ unhandled b.
Proof.
  induction a as [|[X e x] a IH]; simpl; [reflexivity|].
  destruct e; simpl; now rewrite IH.
Qed.

Lemma fetch_results_app (a b : trace) :
  fetch_results (a ++ b) = fetch_results a ++ fetch_results b.
Proof.
  induction a as [|[X e x] a IH]; simpl; [reflexivity|].
  destruct e; simpl; now rewrite IH.
Qed.

Lemma post_results_app (a b : trace) :
  post_results (a ++ b) = post_results a ++ post_results b.
Proof.
  induction a as [|[X e x] a IH]; simpl; [reflexivity|].
  destruct e; simpl; now rewrite IH.
Qed.

Lemma addMessage_calls_app (a b : trace) :
  addMessage_calls (a ++ b) = addMessage_calls a ++ addMessage_calls b.
Proof.
  induction a as [|[X e x] a IH]; simpl; [reflexivity|].
  destruct e; simpl; now rewrite IH.
Qed.

(** Typing adds neither a network call, nor a toast, nor a rejection. *)
Lemma typed_events_silent (l : list jsstring) :
  http_calls (typed_events l) = [] /\ toasts (typed_events l) = [] /\
  unhandled (typed_events l) = [] /\ fetch_results (typed_events l) = [] /\
  post_results (typed_events l) = [] /\ addMessage_calls (typed_events l) = [].
Proof.
  induction l as [|v l IH]; simpl; [repeat split|]. exact IH.
Qed.

Lemma text_of_app (a b : trace) :
  text_of (a ++ b) =
  fold_left (fun t ev => match ev_eff ev with setText v => v | _ => t end)
    b (text_of a).
Proof. unfold text_of. apply fold_left_app. Qed.

Lemma text_of_snoc_setText (a : trace) (v : jsstring) :
  text_of (a ++ [Ev (setText v) tt]) = v.
Proof. rewrite text_of_app. reflexivity. Qed.

End TraceFacts.

(** An answer of type [unit] is [tt]. *)
Ltac unit_answers :=
  repeat match goal with
  | |- context [@answer ?env ?h unit ?e] => destruct (@answer env h unit e)
  end.

(** Case analysis on how the next promise of the goal settled. *)
Ltac settle_next :=
  match goal with
  | |- context [match ?x with Fulfilled _ => _ | Rejected _ => _ end] =>
      destruct x
  end.

(** One step of [run], without unfolding the literals of the source. *)
Ltac run_step := cbn [run pbind bind ret Monad_prog awaits app snd fst].

(** What the user types in between is invisible to the projections of a
    trace other than the text. *)
Ltac silence_typing :=
  repeat match goal with
  | |- context [typed_events ?l] =>
      let H := fresh in
      pose proof (typed_events_silent l) as H;
      destruct H as (? & ? & ? & ? & ? & ?);
      generalize dependent (typed_events l); intros
  end;
  repeat match goal with
  | H : _ = [] |- _ => rewrite H
  end.

Ltac project_step :=
  cbn [http_calls toasts unhandled fetch_results post_results
       addMessage_calls ev_eff ev_ans http_call_of app];
  rewrite ?http_calls_app, ?toasts_app, ?unhandled_app, ?fetch_results_app,
    ?post_results_app, ?addMessage_calls_app.

(** Compute a projection of a trace given by its events. *)
Ltac project :=
  repeat progress project_step; silence_typing; repeat progress project_step.

(* ===================================================================== *)
(** ** RetractVote *)
(* ===================================================================== *)

Section RetractVoteFacts.

Import RetractVote_tsx.

(** One run of the click handler, whatever the environment: the POST, what
    the user typed while it was pending, then one toast chosen by the
    outcome; the promise handed back is fulfilled. *)
Lemma retract_handler_run (env : environment) (hist : trace)
    (message : option Message) :
  let e := frappePostCall retract_vote_api (retract_params message) in
  let x := answer env hist e in
  run env (retract_handler message) hist =
  (Fulfilled tt,
   Ev e x :: typed_events (typed_meanwhile env (hist ++ [Ev e x])) ++
   [Ev (toast match x with
              | Fulfilled _ => vote_retracted
              | Rejected _ => could_not_retract
              end) tt]).
Proof.
  unfold retract_handler, onRetractVote, useFrappePostCall, catch_, then_,
    returning_undefined, trigger.
  run_step. settle_next; run_step; unit_answers; reflexivity.
Qed.

Lemma retract_handler_http_calls env hist message :
  http_calls (emitted env (retract_handler message) hist) =
  [ViaSdkPost retract_vote_api (retract_params message)].
Proof.
  unfold emitted. rewrite retract_handler_run. cbn [snd].
  project. reflexivity.
Qed.

Lemma render_condition_spec Vote (data : option (GetPollResponse Vote)) :
  render_condition data = true <->
  exists d p, data = Some d /\ message d = Some p /\ current_user_votes p <> [].
Proof.
  unfold render_condition. split.
  - destruct data as [d|]; [|discriminate].
    destruct (message d) as [p|] eqn:Hm; [|discriminate].
    intros H. exists d, p. repeat split; trivial.
    destruct (current_user_votes p); [discriminate|congruence].
  - intros (d & p & -> & Hm & Hv). rewrite Hm.
    destruct (current_user_votes p); [congruence|reflexivity].
Qed.

Lemma returns_item_or_nothing Vote message
    (data : option (GetPollResponse Vote)) :
  RetractVote_returns message data =
  if render_condition data then
    Some (Fragment [ContextMenu_Item (retract_handler message)
                      (item_disabled data) item_children;
                    ContextMenu_Separator])
  else None.
Proof. reflexivity. Qed.

Example render_voted :
  menu_item (RetractVote_returns (Some sample_message)
               (Some sample_voted_disabled))
  = Some (retract_handler (Some sample_message), true, item_children).
Proof. reflexivity. Qed.

Example render_before_data :
  RetractVote_returns (Some sample_message)
    (None : option (GetPollResponse unit)) = None.
Proof. reflexivity. Qed.

Example retract_offline_run :
  run offline (retract_handler (Some sample_message)) [] =
  (Fulfilled tt,
   [Ev (frappePostCall (lit "raven.api.raven_poll.retract_vote")
          (JObj [(lit "poll_id", JStr (lit "poll-01"))]))
       (Rejected failed_to_fetch);
    Ev (toast could_not_retract) tt]).
Proof. reflexivity. Qed.

(** C3. The component returns the menu item labelled "Retract vote" exactly
    when the poll payload is there and the current user's list of votes is
    not empty, and returns [null] otherwise; the item's click handler sends
    one call, a POST to [raven.api.raven_poll.retract_vote] with the
    message's [poll_id]. *)
Theorem retract_vote_item_iff_votes :
  forall (Vote : Type) (message : option Message)
         (fetched : option (GetPollResponse Vote))
         (env env' : environment) (hist hist' : trace),
    let voted :=
      exists d p, fetched = Some d /\ RetractVote_tsx.message d = Some p /\
                  current_user_votes p <> [] in
    result env (RetractVote Vote message) hist =
      RetractVote_returns message
        (data (answer env hist (get_poll_hook Vote message)))
    /\ ((exists disabled,
           RetractVote_returns message fetched =
           Some (Fragment [ContextMenu_Item (retract_handler message) disabled
                             [Flex (lit "2")
                                [TiArrowBackOutline (lit "18");
                                 Text (lit "Retract vote")]];
                           ContextMenu_Separator]))
        <-> voted)
    /\ (RetractVote_returns message fetched = None <-> ~ voted)
    /\ http_calls (emitted env' (retract_handler message) hist') =
       [ViaSdkPost (lit "raven.api.raven_poll.retract_vote")
          (JObj [(lit "poll_id",
                  of_opt_string (opt_chain message poll_id))])].
Proof.
  intros Vote message fetched env env' hist hist' voted.
  pose proof (render_condition_spec fetched) as Hc. fold voted in Hc.
  split; [reflexivity|].
  rewrite (returns_item_or_nothing message fetched). split; [|split].
  - destruct (render_condition fetched).
    + split; [intros _; now apply Hc|intros _; eexists; reflexivity].
    + split; [intros [? ?]; discriminate|].
      intros Hv. apply Hc in Hv. discriminate.
  - destruct (render_condition fetched).
    + split; [discriminate|]. intros Hn. exfalso. apply Hn. now apply Hc.
    + split; [|reflexivity]. intros _ Hv. apply Hc in Hv. discriminate.
  - apply retract_handler_http_calls.
Qed.

(** C8. When the menu item is rendered, it is disabled exactly when the
    [is_disabled] flag of the fetched poll is truthy. *)
Theorem retract_vote_item_disabled_iff_flag :
  forall (Vote : Type) (message : option Message)
         (data : option (GetPollResponse Vote))
         (handler : prog (settled unit)) (disabled : bool)
         (children : list node),
    menu_item (RetractVote_returns message data)
      = Some (handler, disabled, children) ->
    exists d p,
      data = Some d /\ RetractVote_tsx.message d = Some p /\
      disabled = truthy (is_disabled (poll p)).
Proof.
  intros Vote message data handler disabled children.
  rewrite returns_item_or_nothing.
  destruct (render_condition data) eqn:Hc; [|discriminate].
  apply render_condition_spec in Hc. destruct Hc as (d & p & -> & Hm & _).
  cbn [menu_item]. intros H. injection H as _ Hd _.
  exists d, p. repeat split; trivial.
  rewrite <- Hd. unfold item_disabled. cbn [opt_chain]. rewrite Hm.
  cbn [opt_chain or_undefined]. now destruct (truthy _).
Qed.

Lemma retract_vote_item_disabled_witness :
  exists d p,
    Some sample_voted_disabled = Some d /\ RetractVote_tsx.message d = Some p /\
    true = truthy (is_disabled (poll p)).
Proof.
  exact (retract_vote_item_disabled_iff_flag (Some sample_message)
           (Some sample_voted_disabled)
           (handler := retract_handler (Some sample_message))
           (children := item_children) eq_refl).
Defined.

Lemma retract_handler_post_results env hist message :
  post_results (emitted env (retract_handler message) hist) =
  [answer env hist (frappePostCall retract_vote_api (retract_params message))].
Proof.
  unfold emitted. rewrite retract_handler_run. cbn [snd].
  project. reflexivity.
Qed.

Lemma retract_handler_toasts env hist message :
  toasts (emitted env (retract_handler message) hist) =
  [retract_toast
     (answer env hist
        (frappePostCall retract_vote_api (retract_params message)))].
Proof.
  unfold emitted. rewrite retract_handler_run. cbn [snd].
  project. reflexivity.
Qed.

Lemma retract_handler_unhandled env hist message :
  unhandled (emitted env (retract_handler message) hist) = [].
Proof.
  unfold emitted. rewrite retract_handler_run. cbn [snd].
  project. reflexivity.
Qed.

(** A render asks for the poll and shows no toast, whatever the hook
    reports. *)
Lemma RetractVote_render_run Vote env hist message :
  emitted env (RetractVote Vote message) hist =
  [Ev (get_poll_hook Vote message)
      (answer env hist (get_poll_hook Vote message))].
Proof. reflexivity. Qed.

End RetractVoteFacts.

(* ===================================================================== *)
(** ** ChatInput *)
(* ===================================================================== *)

Section ChatInputFacts.

Import ChatInput_tsx.
Import JSON.

(** One run of [onSubmit], whatever the environment: the request; then,
    if it fulfilled, the [addMessage] callback; then, if that fulfilled,
    [setText('')].  A rejection of either promise ends the chain and
    reaches the rejection tracker. *)
Lemma onSubmit_run (env : environment) (hist : trace) (text : jsstring) :
  let e1 := fetch send_message_url (send_message_init text) in
  let x1 := answer env hist e1 in
  let ty1 := typed_events (typed_meanwhile env (hist ++ [Ev e1 x1])) in
  let h1 := hist ++ Ev e1 x1 :: ty1 in
  let e2 := addMessage text user_id in
  let x2 := answer env h1 e2 in
  let ty2 := typed_events (typed_meanwhile env (h1 ++ [Ev e2 x2])) in
  emitted env (onSubmit text) hist =
  Ev e1 x1 :: ty1 ++
  match x1 with
  | Rejected r => [Ev (unhandledrejection r) tt]
  | Fulfilled _ =>
      Ev e2 x2 :: ty2 ++
      match x2 with
      | Rejected r => [Ev (unhandledrejection r) tt]
      | Fulfilled _ => [Ev (setText []) tt]
      end
  end.
Proof.
  unfold emitted, onSubmit, floating, then_, returning_undefined, trigger.
  run_step. settle_next; run_step.
  - settle_next; run_step; unit_answers; reflexivity.
  - unit_answers. reflexivity.
Qed.

(** The button is disabled exactly on the empty text, and an enabled
    button runs [onSubmit] on the text of the state. *)
Lemma submit_clicked_unfold (hist : trace) :
  submit_clicked hist =
  match text_of hist with
  | [] => Ret tt
  | _ :: _ => onSubmit (text_of hist)
  end.
Proof.
  unfold submit_clicked, click_submit, ChatInput, handleSubmit. cbn.
  now destruct (text_of hist).
Qed.

Lemma onSubmit_http_calls env hist text :
  http_calls (emitted env (onSubmit text) hist) =
  [ViaFetch send_message_url (send_message_init text)].
Proof.
  rewrite onSubmit_run.
  settle_next; [settle_next|]; project; reflexivity.
Qed.

Lemma onSubmit_fetch_results env hist text :
  fetch_results (emitted env (onSubmit text) hist) =
  [answer env hist (fetch send_message_url (send_message_init text))].
Proof.
  rewrite onSubmit_run.
  settle_next; [settle_next|]; project; reflexivity.
Qed.

Example submit_online_run :
  emitted online (submit_clicked typed_hi) typed_hi =
  [Ev (fetch send_message_url (send_message_init (lit "hi")))
      (Fulfilled {| status := 200 |});
   Ev (setText (lit "x")) tt;
   Ev (addMessage (lit "hi") user_id) (Fulfilled tt);
   Ev (setText (lit "x")) tt;
   Ev (setText []) tt].
Proof. reflexivity. Qed.

Example submit_offline_run :
  emitted offline (submit_clicked typed_hi) typed_hi =
  [Ev (fetch send_message_url (send_message_init (lit "hi")))
      (Rejected failed_to_fetch);
   Ev (unhandledrejection failed_to_fetch) tt].
Proof. reflexivity. Qed.

Example submit_empty_run : emitted online (submit_clicked []) [] = [].
Proof. reflexivity. Qed.

Example send_message_body_sample :
  body (send_message_init (lit "hi")) =
  lit "{" ++ QuoteJSONString (lit "channel_id") ++ lit ":" ++
  QuoteJSONString (lit "862bf4d1ce") ++ lit "," ++
  QuoteJSONString (lit "user_id") ++ lit ":" ++
  QuoteJSONString (lit "patiladitya781@gmail.com") ++ lit "," ++
  QuoteJSONString (lit "text") ++ lit ":" ++
  QuoteJSONString (lit "hi") ++ lit "}".
Proof. reflexivity. Qed.

(** C1, at a concrete click: the user typed "hi", the submit button is
    enabled and is clicked, and the request fails.  [addMessage] is not
    invoked and the field keeps its text. *)
Lemma submit_offline_keeps_text :
  text_of typed_hi = lit "hi"
  /\ button_isDisabled (ChatInput (text_of typed_hi)) = false
  /\ fetch_results (emitted offline (submit_clicked typed_hi) typed_hi) =
     [Rejected failed_to_fetch]
  /\ addMessage_calls (emitted offline (submit_clicked typed_hi) typed_hi) = []
  /\ text_of (typed_hi ++ emitted offline (submit_clicked typed_hi) typed_hi) =
     lit "hi".
Proof. repeat split. Qed.

(** C1, amended.  A click on submit with non-empty text, when the promise
    of the request fulfils, invokes [addMessage] with the text of the state
    and the user id; when the promise of [addMessage] fulfils in turn, the
    last thing the handler does is [setText('')], so the field is empty. *)
Theorem submit_sends_then_clears :
  forall (env : environment) (hist : trace) (resp : Response),
    text_of hist <> [] ->
    fetch_results (emitted env (submit_clicked hist) hist) = [Fulfilled resp] ->
    let out := emitted env (submit_clicked hist) hist in
    exists outcome,
      addMessage_calls out = [(text_of hist, user_id, outcome)] /\
      (outcome = Fulfilled tt ->
       (exists before between,
          out = before ++
                Ev (addMessage (text_of hist) user_id) (Fulfilled tt) ::
                between ++ [Ev (setText []) tt]) /\
       text_of (hist ++ out) = []).
Proof.
  intros env hist resp Hne. rewrite submit_clicked_unfold.
  destruct (text_of hist) as [|c rest] eqn:Ht; [congruence|].
  rewrite <- Ht. clear Hne. rewrite onSubmit_fetch_results.
  intros Hf. cbv zeta. rewrite onSubmit_run. injection Hf as Hf. rewrite Hf.
  match goal with
  | |- context [Ev (addMessage ?t ?u) ?x] => exists x
  end.
  split.
  - settle_next; project; reflexivity.
  - intros Hx. rewrite Hx. split.
    + eexists (_ :: _), _. cbn [app]. rewrite <- app_assoc. reflexivity.
    + rewrite !app_comm_cons, !app_assoc. apply text_of_snoc_setText.
Qed.

Lemma submit_sends_then_clears_witness :
  exists outcome,
    addMessage_calls (emitted online (submit_clicked typed_hi) typed_hi) =
    [(text_of typed_hi, user_id, outcome)] /\
    (outcome = Fulfilled tt ->
     (exists before between,
        emitted online (submit_clicked typed_hi) typed_hi =
        before ++
        Ev (addMessage (text_of typed_hi) user_id) (Fulfilled tt) ::
        between ++ [Ev (setText []) tt]) /\
     text_of (typed_hi ++ emitted online (submit_clicked typed_hi) typed_hi)
     = []).
Proof.
  apply (@submit_sends_then_clears online typed_hi {| status := 200 |}).
  - vm_compute. discriminate.
  - reflexivity.
Defined.

(** The body of the request carries the text and nothing else of it: two
    bodies are equal only for equal texts. *)
Lemma send_message_body_inj text1 text2 :
  body (send_message_init text1) = body (send_message_init text2) ->
  text1 = text2.
Proof.
  unfold send_message_init. cbn [body].
  apply (@stringify_last_inj
           [(lit "channel_id", channel_id); (lit "user_id", user_id)]
           (lit "text")).
Qed.

Lemma onSubmit_toasts env hist text :
  toasts (emitted env (onSubmit text) hist) = [].
Proof.
  rewrite onSubmit_run.
  settle_next; [settle_next|]; project; reflexivity.
Qed.

Lemma onSubmit_unhandled env hist text :
  let out := emitted env (onSubmit text) hist in
  unhandled out =
  reasons (fetch_results out) ++ reasons (map snd (addMessage_calls out)).
Proof.
  cbv zeta. rewrite onSubmit_run.
  settle_next; [settle_next|]; project; reflexivity.
Qed.

(** C2, at a concrete run: the request of [onSubmit] rejects, no toast is
    shown and the rejection is left unhandled. *)
Lemma send_message_error_not_surfaced :
  fetch_results (emitted offline (onSubmit (lit "hi")) typed_hi) =
    [Rejected failed_to_fetch]
  /\ toasts (emitted offline (onSubmit (lit "hi")) typed_hi) = []
  /\ unhandled (emitted offline (onSubmit (lit "hi")) typed_hi) =
     [failed_to_fetch].
Proof. repeat split. Qed.

(** C2, amended.  The error of the [retract_vote] call is caught where the
    call is made: the handler shows one toast, "Could not retract vote"
    when the call rejected, leaves no rejection unhandled and hands back a
    fulfilled promise.  The request of [ChatInput]'s [onSubmit] has no
    rejection handler: the handler never shows a toast, and every rejection
    of its chain reaches the rejection tracker.  A render of [RetractVote]
    shows no toast either, whatever error the [get_poll] hook reports. *)
Theorem only_retract_vote_error_is_toasted :
  forall (Vote : Type) (env : environment) (hist : trace)
         (message : option RetractVote_tsx.Message) (text : jsstring),
    let retract := emitted env (RetractVote_tsx.retract_handler message) hist in
    let submit := emitted env (onSubmit text) hist in
    let render := emitted env (RetractVote_tsx.RetractVote Vote message) hist in
    (List.length (post_results retract) = 1%nat /\
     toasts retract = map retract_toast (post_results retract) /\
     unhandled retract = [] /\
     result env (RetractVote_tsx.retract_handler message) hist = Fulfilled tt)
    /\ (toasts submit = [] /\
        unhandled submit =
        reasons (fetch_results submit) ++
        reasons (map snd (addMessage_calls submit)))
    /\ toasts render = [].
Proof.
  intros Vote env hist message text retract submit render.
  subst retract submit render. repeat split.
  - now rewrite retract_handler_post_results.
  - now rewrite retract_handler_post_results, retract_handler_toasts.
  - apply retract_handler_unhandled.
  - unfold result. now rewrite retract_handler_run.
  - apply onSubmit_toasts.
  - apply onSubmit_unhandled.
Qed.

(** C7. Each run of a handler sends its network call once, and the call
    settles once, however it settles: the click on "Retract vote" sends one
    POST, a submit sends one request, and a click on the submit button sends
    one request or, when the text is empty, none. *)
Theorem handlers_call_once :
  forall (env : environment) (hist : trace)
         (message : option RetractVote_tsx.Message) (text : jsstring),
    let retract := emitted env (RetractVote_tsx.retract_handler message) hist in
    let submit := emitted env (onSubmit text) hist in
    let click := emitted env (submit_clicked hist) hist in
    (List.length (http_calls retract) = 1 /\ List.length (post_results retract) = 1)
    /\ (List.length (http_calls submit) = 1 /\ List.length (fetch_results submit) = 1)
    /\ List.length (http_calls click) = (if length_is_zero (text_of hist) then 0 else 1)
    /\ List.length (http_calls click) <= 1.
Proof.
  intros env hist message text retract submit click.
  subst retract submit click.
  rewrite retract_handler_http_calls, retract_handler_post_results,
    onSubmit_http_calls, onSubmit_fetch_results, submit_clicked_unfold.
  destruct (text_of hist) as [|c rest] eqn:Ht.
  - cbn. repeat split; lia.
  - cbn [length_is_zero]. rewrite onSubmit_http_calls. cbn.
    repeat split; lia.
Qed.

(** C4. The component keeps one string, the value of its input, in its
    state; a submit posts it to the [send_message] endpoint, whose URL is a
    literal: the one network call of [onSubmit] is a POST to that URL whose
    body is the JSON text of an object with the string as its [text], and
    the body determines the string. *)
Theorem submit_posts_text_to_fixed_endpoint :
  forall (env : environment) (hist : trace) (text text' : jsstring),
    input_value (ChatInput (text_of hist)) = text_of hist
    /\ http_calls (emitted env (onSubmit text) hist) =
       [ViaFetch
          (lit "http://localhost:8080/api/method/raven.messaging.doctype.message.message.send_message")
          (send_message_init text)]
    /\ method (send_message_init text) = lit "POST"
    /\ body (send_message_init text) =
       JSON.stringify [(lit "channel_id", channel_id);
                       (lit "user_id", user_id);
                       (lit "text", text)]
    /\ (body (send_message_init text) = body (send_message_init text') <->
        text = text')
    /\ http_calls (emitted env (submit_clicked hist) hist) =
       match text_of hist with
       | [] => []
       | _ :: _ =>
           [ViaFetch
              (lit "http://localhost:8080/api/method/raven.messaging.doctype.message.message.send_message")
              (send_message_init (text_of hist))]
       end.
Proof.
  intros env hist text text'. repeat split.
  - apply onSubmit_http_calls.
  - apply send_message_body_inj.
  - now intros ->.
  - rewrite submit_clicked_unfold.
    destruct (text_of hist); [reflexivity|apply onSubmit_http_calls].
Qed.

(** C10. The request of a submit is a function of the text alone: the
    channel, the user and the token are literals, so two clicks on states
    with the same text send the same request, in any environment and after
    any history. *)
Theorem same_text_same_request :
  forall (env1 env2 : environment) (hist1 hist2 : trace),
    text_of hist1 = text_of hist2 ->
    http_calls (emitted env1 (submit_clicked hist1) hist1) =
    http_calls (emitted env2 (submit_clicked hist2) hist2)
    /\ forall text,
         http_calls (emitted env1 (onSubmit text) hist1) =
         [ViaFetch
            (lit "http://localhost:8080/api/method/raven.messaging.doctype.message.message.send_message")
            {| method := lit "POST";
               headers := [(lit "Authorization",
                            lit "token 70fc5baf0dbedeb:153d36b83606c05")];
               body := JSON.stringify
                         [(lit "channel_id", lit "862bf4d1ce");
                          (lit "user_id", lit "patiladitya781@gmail.com");
                          (lit "text", text)] |}].
Proof.
  intros env1 env2 hist1 hist2 Heq. split.
  - rewrite !submit_clicked_unfold, <- Heq.
    destruct (text_of hist1); [reflexivity|].
    now rewrite !onSubmit_http_calls.
  - intros text. apply onSubmit_http_calls.
Qed.

Lemma same_text_same_request_witness :
  http_calls (emitted online (submit_clicked typed_hi) typed_hi) =
  http_calls
    (emitted offline
       (submit_clicked (typed_hi ++ [Ev (toast RetractVote_tsx.vote_retracted) tt]))
       (typed_hi ++ [Ev (toast RetractVote_tsx.vote_retracted) tt])).
Proof.
  exact (proj1 (@same_text_same_request online offline typed_hi
                  (typed_hi ++ [Ev (toast RetractVote_tsx.vote_retracted) tt])
                  eq_refl)).
Defined.

End ChatInputFacts.

(* ===================================================================== *)
(** ** AddChannelMemberModal *)
(* ===================================================================== *)

Section ModalFacts.

Import AddChannelMemberModal_tsx.

Variable validate : FormProps -> bool.
Variable reset_id : nat.

Lemma form_values_app (a b : trace) :
  form_values (a ++ b) =
  fold_left
    (fun f ev =>
       match ev_eff ev with
       | form_reset => defaultValues
       | form_setValue v => {| add_members := v |}
       | _ => f
       end)
    b (form_values a).
Proof. unfold form_values. apply fold_left_app. Qed.

(** A submit logs the values and calls [onClose], when the values pass the
    rules of the field; it does nothing otherwise. *)
Lemma modal_submit_run env hist props form submitted :
  emitted env
    (form_onSubmit (AddChannelMemberModal validate reset_id props form)
       submitted) hist =
  if validate submitted then
    [Ev (console_log [to_js submitted; to_js_members (add_members form)]) tt;
     Ev onClose tt]
  else [].
Proof.
  unfold emitted, AddChannelMemberModal, handleSubmit, onSubmit, trigger.
  cbn [form_onSubmit]. destruct (validate submitted); run_step;
    unit_answers; reflexivity.
Qed.

Lemma modal_effect_run env hist props form prev :
  emitted env
    (effect (AddChannelMemberModal validate reset_id props form) prev) hist =
  if deps_changed prev (isOpen props, reset_id) then [Ev form_reset tt]
  else [].
Proof.
  unfold emitted, AddChannelMemberModal, useEffect, reset, trigger.
  cbn [effect]. destruct (deps_changed _ _); run_step;
    unit_answers; reflexivity.
Qed.

Lemma isOpen_changed_deps prev now :
  isOpen_changed prev now = true -> deps_changed prev (now, reset_id) = true.
Proof.
  unfold isOpen_changed, deps_changed. destruct prev as [[o r]|]; trivial.
  cbn [fst snd]. destruct (Bool.eqb o now); [discriminate|reflexivity].
Qed.

Example modal_first_render_resets :
  emitted online
    (effect (AddChannelMemberModal validate reset_id sample_props
               defaultValues) None) [] = [Ev form_reset tt].
Proof. reflexivity. Qed.

Example modal_same_isOpen_keeps_selection :
  emitted online
    (effect (AddChannelMemberModal validate reset_id sample_props
               (form_values picked_alice)) (Some (true, reset_id)))
    picked_alice = [].
Proof.
  rewrite modal_effect_run. unfold deps_changed. cbn.
  now rewrite Nat.eqb_refl.
Qed.

(** C5. The form has one field, [add_members], a list of strings or
    [null].  Submitting any values sends no network call and leaves the
    values of the form as they were: the handler only logs them and calls
    [onClose]. *)
Theorem modal_submit_changes_nothing :
  forall (props : AddChannelMemberModalProps) (form submitted : FormProps)
         (env : environment) (hist : trace),
    let out :=
      emitted env
        (form_onSubmit (AddChannelMemberModal validate reset_id props form)
           submitted) hist in
    submitted = {| add_members := add_members submitted |}
    /\ http_calls out = []
    /\ form_values (hist ++ out) = form_values hist
    /\ out =
       (if validate submitted then
          [Ev (console_log
                 [to_js submitted; to_js_members (add_members form)]) tt;
           Ev onClose tt]
        else []).
Proof.
  intros props form submitted env hist out. subst out.
  rewrite modal_submit_run. repeat split.
  - now destruct submitted.
  - now destruct (validate submitted).
  - rewrite form_values_app. now destruct (validate submitted).
Qed.

(** C9. After every render at which [isOpen] differs from the previous
    render (and after the first one) the effect calls [reset()]: the form
    holds its default values, [add_members] is [null], whatever was
    selected before. *)
Theorem modal_resets_when_isOpen_changes :
  forall (props : AddChannelMemberModalProps) (form : FormProps)
         (prev : option deps) (env : environment) (hist : trace),
    isOpen_changed prev (isOpen props) = true ->
    let out :=
      emitted env
        (effect (AddChannelMemberModal validate reset_id props form) prev)
        hist in
    out = [Ev form_reset tt]
    /\ form_values (hist ++ out) = defaultValues
    /\ add_members (form_values (hist ++ out)) = None.
Proof.
  intros props form prev env hist Hchg out. subst out.
  rewrite modal_effect_run, (isOpen_changed_deps _ _ Hchg).
  rewrite form_values_app. repeat split.
Qed.

End ModalFacts.

Lemma modal_resets_when_isOpen_changes_witness :
  AddChannelMemberModal_tsx.add_members
    (AddChannelMemberModal_tsx.form_values
       AddChannelMemberModal_tsx.picked_alice)
  = Some [lit "alice@example.com"]
  /\ AddChannelMemberModal_tsx.add_members
       (AddChannelMemberModal_tsx.form_values
          (AddChannelMemberModal_tsx.picked_alice ++
           emitted online
             (AddChannelMemberModal_tsx.effect
                (AddChannelMemberModal_tsx.AddChannelMemberModal
                   (fun _ => true) 0 AddChannelMemberModal_tsx.sample_props
                   (AddChannelMemberModal_tsx.form_values
                      AddChannelMemberModal_tsx.picked_alice))
                (Some (false, 0)))
             AddChannelMemberModal_tsx.picked_alice))
     = None.
Proof.
  split; [reflexivity|].
  exact (proj2 (proj2
    (@modal_resets_when_isOpen_changes (fun _ => true) 0
       AddChannelMemberModal_tsx.sample_props
       (AddChannelMemberModal_tsx.form_values
          AddChannelMemberModal_tsx.picked_alice)
       (Some (false, 0)) online AddChannelMemberModal_tsx.picked_alice
       eq_refl))).
Defined.

(* ===================================================================== *)
(** ** The network calls of the three components *)
(* ===================================================================== *)

Section ExternalInterface.

Variable Vote : Type.
Variable validate : AddChannelMemberModal_tsx.FormProps -> bool.
Variable reset_id : nat.

(** C6. The renders and handlers of the three components reach three API
    methods and no other: a render of [RetractVote] asks the SDK for
    [raven.api.raven_poll.get_poll], the click on its item has the SDK post
    to [raven.api.raven_poll.retract_vote], and a submit of [ChatInput]
    fetches [raven.messaging.doctype.message.message.send_message].  Only
    the [fetch] names a credential, a [token] in the [Authorization]
    header; the two SDK calls pass the API method and their parameters and
    nothing else.  Typing into the input and everything the modal does send
    nothing. *)
Theorem only_three_api_methods :
  forall (env : environment) (hist : trace)
         (message : option RetractVote_tsx.Message)
         (text value : jsstring)
         (props : AddChannelMemberModal_tsx.AddChannelMemberModalProps)
         (form submitted : AddChannelMemberModal_tsx.FormProps)
         (prev : option AddChannelMemberModal_tsx.deps),
    let modal :=
      AddChannelMemberModal_tsx.AddChannelMemberModal
        validate reset_id props form in
    http_calls (emitted env (RetractVote_tsx.RetractVote Vote message) hist) =
      [ViaSdkGet (lit "raven.api.raven_poll.get_poll")
         (JObj [(lit "message_id",
                 of_opt_string
                   (opt_chain message
                      (fun m => Some (RetractVote_tsx.name m))))])]
    /\ http_calls (emitted env (RetractVote_tsx.retract_handler message) hist) =
      [ViaSdkPost (lit "raven.api.raven_poll.retract_vote")
         (JObj [(lit "poll_id",
                 of_opt_string (opt_chain message RetractVote_tsx.poll_id))])]
    /\ http_calls (emitted env (ChatInput_tsx.onSubmit text) hist) =
      [ViaFetch
         (lit "http://localhost:8080/api/method/" ++
          lit "raven.messaging.doctype.message.message.send_message")
         {| method := lit "POST";
            headers :=
              [(lit "Authorization",
                lit "token " ++ lit "70fc5baf0dbedeb:153d36b83606c05")];
            body :=
              JSON.stringify
                [(lit "channel_id", ChatInput_tsx.channel_id);
                 (lit "user_id", ChatInput_tsx.user_id);
                 (lit "text", text)] |}]
    /\ http_calls
        (emitted env
           (ChatInput_tsx.input_onChange (ChatInput_tsx.ChatInput text) value)
           hist) = []
    /\ http_calls
        (emitted env (AddChannelMemberModal_tsx.form_onSubmit modal submitted)
           hist) = []
    /\ http_calls
        (emitted env (AddChannelMemberModal_tsx.cancel_onClick modal) hist)
      = []
    /\ http_calls
        (emitted env (AddChannelMemberModal_tsx.effect modal prev) hist) = [].
Proof.
  intros env hist message text value props form submitted prev modal.
  subst modal. repeat split.
  - apply retract_handler_http_calls.
  - apply onSubmit_http_calls.
  - rewrite modal_submit_run. now destruct (validate submitted).
  - rewrite modal_effect_run.
    now destruct (AddChannelMemberModal_tsx.deps_changed _ _).
Qed.

End ExternalInterface.

(* ===================================================================== *)
(** ** More on JSON.stringify: what the body of the request looks like *)
(* ===================================================================== *)

Section JsonShape.

Import JSON.
Local Open Scope N_scope.

Lemma hex_digit_range d : d < 16 -> 48 <= hex_digit d <= 102.
Proof. unfold hex_digit. intros H. destruct (N.ltb_spec d 10); lia. Qed.

Lemma hex_digit_plain d :
  d < 16 ->
  is_leading_surrogate (hex_digit d) = false /\
  is_trailing_surrogate (hex_digit d) = false.
Proof.
  intros H. pose proof (hex_digit_range H) as Hr.
  unfold is_leading_surrogate, is_trailing_surrogate.
  split; apply andb_false_iff; left; apply N.leb_gt; lia.
Qed.

Lemma short_escape_range c e : short_escape c = Some e -> 34 <= e <= 116.
Proof.
  intros Hc. pose proof (short_escape_cases c) as H. rewrite Hc in H.
  cbn in H.
  repeat destruct H as [H|H]; try contradiction;
    injection H as _ <-; lia.
Qed.

Lemma surrogate_free c :
  c < 55296 ->
  is_leading_surrogate c = false /\ is_trailing_surrogate c = false.
Proof.
  intros H. unfold is_leading_surrogate, is_trailing_surrogate.
  split; apply andb_false_iff; left; apply N.leb_gt; lia.
Qed.

(** A unit that is no surrogate does not matter to well-formedness. *)
Lemma well_formed_cons_plain c s :
  is_leading_surrogate c = false -> is_trailing_surrogate c = false ->
  well_formed_utf16 (c :: s) = well_formed_utf16 s.
Proof. intros Hl Ht. cbn [well_formed_utf16]. now rewrite Hl, Ht. Qed.

Lemma well_formed_cons_low c s :
  c < 55296 -> well_formed_utf16 (c :: s) = well_formed_utf16 s.
Proof.
  intros H. destruct (surrogate_free H). now apply well_formed_cons_plain.
Qed.

Lemma well_formed_UnicodeEscape c s :
  well_formed_utf16 (UnicodeEscape c ++ s) = well_formed_utf16 s.
Proof.
  unfold UnicodeEscape. cbn [app].
  assert (Hm : forall x, x mod 16 < 16) by (intros; now apply N.mod_lt).
  rewrite !well_formed_cons_low; trivial;
    try (pose proof (hex_digit_range (Hm (c / 4096))); lia);
    try (pose proof (hex_digit_range (Hm (c / 256))); lia);
    try (pose proof (hex_digit_range (Hm (c / 16))); lia);
    try (pose proof (hex_digit_range (Hm c)); lia); lia.
Qed.

(** The shape of a quoted string, read off its first code point: an
    escape when the unit is not printable or is a lone surrogate, the unit
    or the pair itself otherwise. *)
Lemma quote_units_step c rest :
  (exists e, short_escape c = Some e /\
             quote_units (c :: rest) = 92 :: e :: quote_units rest)
  \/ ((printable_unit c = false \/ well_formed_utf16 (c :: rest) = false)
      /\ short_escape c = None
      /\ quote_units (c :: rest) = UnicodeEscape c ++ quote_units rest)
  \/ (printable_unit c = true /\ is_leading_surrogate c = false /\
      is_trailing_surrogate c = false /\
      quote_units (c :: rest) = c :: quote_units rest)
  \/ (exists d rest',
        rest = d :: rest' /\ printable_unit c = true /\
        is_leading_surrogate c = true /\ is_trailing_surrogate d = true /\
        quote_units (c :: rest) = c :: d :: quote_units rest').
Proof.
  pose proof (quote_units_cons c rest) as Hq.
  unfold printable_unit. cbn [well_formed_utf16].
  destruct (short_escape c) as [e|] eqn:He; [left; eauto|right].
  destruct (c <? 32) eqn:Hlt; [left; cbn; tauto|].
  destruct (is_leading_surrogate c) eqn:Hlead.
  - destruct rest as [|d rest']; [left; tauto|].
    destruct (is_trailing_surrogate d) eqn:Hd.
    + right. right. exists d, rest'. cbn. tauto.
    + left. cbn. tauto.
  - destruct (is_trailing_surrogate c) eqn:Htrail; [left; tauto|].
    right. left. cbn. tauto.
Qed.

(** Induction along the code points of a string: one unit or one pair at
    a time. *)
Lemma code_point_ind (P : jsstring -> Prop) :
  P [] ->
  (forall c rest,
      P rest -> (forall d rest', rest = d :: rest' -> P rest') ->
      P (c :: rest)) ->
  forall s, P s.
Proof.
  intros Hnil Hcons s.
  assert (H : P s /\ forall d rest', s = d :: rest' -> P rest').
  { induction s as [|c rest [IH1 IH2]].
    - split; [exact Hnil|discriminate].
    - split; [now apply Hcons|]. intros d rest' [= _ <-]. exact IH1. }
  exact (proj1 H).
Qed.

Lemma printable_unit_ge c : printable_unit c = true -> 32 <= c.
Proof.
  unfold printable_unit. destruct (short_escape c); [discriminate|].
  intros H. apply negb_true_iff, N.ltb_ge in H. exact H.
Qed.

Lemma trailing_printable d :
  is_trailing_surrogate d = true -> printable_unit d = true.
Proof.
  intros Hd. apply surrogate_bounds in Hd.
  unfold printable_unit. pose proof (short_escape_cases d) as H.
  destruct (short_escape d) as [e|].
  - cbn in H. repeat destruct H as [H|H]; try contradiction;
      injection H as <- _; lia.
  - apply negb_true_iff, N.ltb_ge. lia.
Qed.

Lemma UnicodeEscape_ge c : Forall (fun u => 32 <= u) (UnicodeEscape c).
Proof.
  assert (Hm : forall x, x mod 16 < 16) by (intros; now apply N.mod_lt).
  unfold UnicodeEscape.
  repeat constructor; try lia;
    match goal with
    | |- _ <= hex_digit (?x mod 16) =>
        pose proof (hex_digit_range (Hm x)); lia
    end.
Qed.

(** No control character survives quoting. *)
Lemma quote_units_ge (s : jsstring) : Forall (fun u => 32 <= u) (quote_units s).
Proof.
  induction s as [|c rest IH IH'] using code_point_ind; [constructor|].
  destruct (quote_units_step c rest)
    as [(e & He & ->)|[(_ & _ & ->)|[(Hp & _ & _ & ->)
       |(d & rest' & -> & Hp & _ & Hd & ->)]]].
  - pose proof (short_escape_range c He).
    repeat constructor; trivial; lia.
  - apply Forall_app. split; [apply UnicodeEscape_ge|exact IH].
  - constructor; [now apply printable_unit_ge|exact IH].
  - apply surrogate_bounds in Hd.
    repeat constructor; [now apply printable_unit_ge|lia|now apply IH' with d].
Qed.

(** Quoting never shortens a string and at most multiplies its length by
    six. *)
Lemma quote_units_length (s : jsstring) :
  (List.length s <= List.length (quote_units s) <= 6 * List.length s)%nat.
Proof.
  induction s as [|c rest IH IH'] using code_point_ind; [cbn; lia|].
  destruct (quote_units_step c rest)
    as [(e & He & ->)|[(_ & _ & ->)|[(Hp & _ & _ & ->)
       |(d & rest' & -> & Hp & _ & Hd & ->)]]].
  - cbn [List.length]. lia.
  - rewrite length_app. cbn [List.length UnicodeEscape]. lia.
  - cbn [List.length]. lia.
  - specialize (IH' d rest' eq_refl). cbn [List.length]. lia.
Qed.

(** Every surrogate of a quoted string is half of a pair. *)
Lemma quote_units_well_formed (s : jsstring) : well_formed_utf16 (quote_units s) = true.
Proof.
  induction s as [|c rest IH IH'] using code_point_ind; [reflexivity|].
  destruct (quote_units_step c rest)
    as [(e & He & ->)|[(_ & _ & ->)|[(Hp & Hl & Ht & ->)
       |(d & rest' & -> & Hp & Hl & Hd & ->)]]].
  - pose proof (short_escape_range c He).
    rewrite !well_formed_cons_low; trivial; lia.
  - now rewrite well_formed_UnicodeEscape.
  - now rewrite well_formed_cons_plain.
  - cbn [well_formed_utf16]. rewrite Hl, Hd. cbn. now apply IH' with d.
Qed.

(** A string is quoted as itself exactly when it needs no escape. *)
Lemma quote_units_verbatim (s : jsstring) :
  quote_units s = s <-> needs_no_escape s = true.
Proof.
  unfold needs_no_escape.
  induction s as [|c rest IH IH'] using code_point_ind; [now split|].
  pose proof (quote_units_length rest) as Hlen.
  destruct (quote_units_step c rest)
    as [(e & He & ->)|[(Hbad & He & ->)|[(Hp & Hl & Ht & ->)
       |(d & rest' & -> & Hp & Hl & Hd & ->)]]].
  - split.
    + intros [= _ H]. apply (f_equal (@List.length N)) in H.
      cbn [List.length] in H. lia.
    + cbn [forallb]. unfold printable_unit at 1. rewrite He. discriminate.
  - split.
    + unfold UnicodeEscape. cbn [app]. intros [= _ H].
      apply (f_equal (@List.length N)) in H. cbn [List.length] in H. lia.
    + cbn [forallb]. intros H. apply andb_prop in H as [H1 H2].
      apply andb_prop in H1 as [H1 _]. destruct Hbad; congruence.
  - cbn [forallb]. rewrite Hp, well_formed_cons_plain by trivial.
    cbn [andb]. rewrite <- IH. split; [now intros [= ->]|now intros ->].
  - specialize (IH' d rest' eq_refl).
    cbn [forallb well_formed_utf16]. rewrite Hp, Hl, Hd, (trailing_printable d Hd).
    cbn [andb]. rewrite <- IH'.
    split; [now intros [= ->]|now intros ->].
Qed.

Lemma well_formed_app a b :
  well_formed_utf16 a = true ->
  well_formed_utf16 (a ++ b) = well_formed_utf16 b.
Proof.
  induction a as [|c rest IH IH'] using code_point_ind; [reflexivity|].
  cbn [well_formed_utf16 app].
  destruct (is_leading_surrogate c).
  - destruct rest as [|d rest']; [discriminate|]. cbn [app].
    intros H. apply andb_prop in H as [-> H]. cbn [andb].
    now apply IH' with d.
  - destruct (is_trailing_surrogate c); [discriminate|exact IH].
Qed.

Lemma QuoteJSONString_ge s : Forall (fun u => 32 <= u) (QuoteJSONString s).
Proof.
  unfold QuoteJSONString. constructor; [lia|].
  apply Forall_app. split; [apply quote_units_ge|repeat constructor; lia].
Qed.

Lemma QuoteJSONString_well_formed s :
  well_formed_utf16 (QuoteJSONString s) = true.
Proof.
  unfold QuoteJSONString. rewrite well_formed_cons_low by lia.
  now rewrite well_formed_app by apply quote_units_well_formed.
Qed.

Lemma members_ge props : Forall (fun u => 32 <= u) (members props).
Proof.
  induction props as [|[k v] more IH]; [constructor|].
  destruct more as [|p more'].
  - cbn [members]. apply Forall_app. split; [apply QuoteJSONString_ge|].
    constructor; [lia|apply QuoteJSONString_ge].
  - rewrite members_cons. apply Forall_app.
    split; [apply QuoteJSONString_ge|]. constructor; [lia|].
    apply Forall_app. split; [apply QuoteJSONString_ge|].
    constructor; [lia|exact IH].
Qed.

Lemma members_well_formed props : well_formed_utf16 (members props) = true.
Proof.
  induction props as [|[k v] more IH]; [reflexivity|].
  destruct more as [|p more'].
  - cbn [members].
    rewrite well_formed_app by apply QuoteJSONString_well_formed.
    rewrite well_formed_cons_low by lia. apply QuoteJSONString_well_formed.
  - rewrite members_cons.
    rewrite well_formed_app by apply QuoteJSONString_well_formed.
    rewrite well_formed_cons_low by lia.
    rewrite well_formed_app by apply QuoteJSONString_well_formed.
    now rewrite well_formed_cons_low by lia.
Qed.

(** The body, split at the text. *)
Lemma send_message_body_split text :
  body (ChatInput_tsx.send_message_init text) =
  ChatInput_tsx.body_before_text ++ 34 :: quote_units text ++ [34; 125].
Proof.
  unfold ChatInput_tsx.send_message_init, ChatInput_tsx.body_before_text,
    stringify. cbn [body]. rewrite !members_cons. cbn [members].
  unfold QuoteJSONString at 6.
  change (lit "{") with [123]. change (lit ":") with [58].
  change (lit ",") with [44].
  repeat progress (rewrite <- ?app_assoc; cbn [app]). reflexivity.
Qed.

(** X1. Whatever the user typed, the body of the [send_message] request
    holds no control character: every code unit is at least a space. *)
Theorem request_body_has_no_control_character :
  forall text : jsstring,
    Forall (fun u => 32 <= u) (body (ChatInput_tsx.send_message_init text)).
Proof.
  intros text. unfold ChatInput_tsx.send_message_init, stringify. cbn [body].
  constructor; [lia|]. apply Forall_app.
  split; [apply members_ge|repeat constructor; lia].
Qed.

(** X2. Whatever the user typed, lone surrogates included, the body of the
    request is well-formed UTF-16: every surrogate in it is half of a
    pair. *)
Theorem request_body_is_well_formed :
  forall text : jsstring,
    well_formed_utf16 (body (ChatInput_tsx.send_message_init text)) = true.
Proof.
  intros text. unfold ChatInput_tsx.send_message_init, stringify. cbn [body].
  rewrite well_formed_cons_low by lia.
  now rewrite well_formed_app by apply members_well_formed.
Qed.

(** X3. The text travels unchanged between two double quotes exactly when
    it needs no escape: no control character, no double quote, no
    backslash and no lone surrogate. *)
Theorem request_body_verbatim :
  forall text : jsstring,
    body (ChatInput_tsx.send_message_init text) =
    ChatInput_tsx.body_before_text ++ 34 :: text ++ [34; 125]
    <-> needs_no_escape text = true.
Proof.
  intros text. rewrite send_message_body_split, <- quote_units_verbatim.
  split.
  - intros H. apply app_inv_head in H. injection H as H.
    now apply app_inv_tail in H.
  - now intros ->.
Qed.

(** X4. The body grows with the text and with nothing else: it is 74 code
    units around a quoted text that is at least as long as the text and at
    most six times as long. *)
Theorem request_body_length :
  forall text : jsstring,
    (74 + List.length text
     <= List.length (body (ChatInput_tsx.send_message_init text))
     <= 74 + 6 * List.length text)%nat.
Proof.
  intros text. rewrite send_message_body_split.
  pose proof (quote_units_length text) as H.
  rewrite length_app. cbn [List.length]. rewrite length_app.
  change (List.length ChatInput_tsx.body_before_text) with 71%nat.
  cbn [List.length]. lia.
Qed.

End JsonShape.

(* ===================================================================== *)
(** ** Sessions of the message box *)
(* ===================================================================== *)

Section ChatSessions.

Import ChatInput_tsx.

Lemma text_of_typed_events (hist : trace) (typing : list jsstring) :
  text_of (hist ++ typed_events typing) = last typing (text_of hist).
Proof.
  induction typing as [|v more _] using rev_ind.
  - now rewrite app_nil_r.
  - unfold typed_events. rewrite map_app, app_assoc, last_last.
    apply text_of_snoc_setText.
Qed.

Lemma chat_session_app env evs1 evs2 hist :
  chat_session env (evs1 ++ evs2) hist =
  chat_session env evs1 hist ++
  chat_session env evs2 (hist ++ chat_session env evs1 hist).
Proof.
  revert hist. induction evs1 as [|ev more IH]; intros hist; cbn [app chat_session].
  - now rewrite app_nil_r.
  - rewrite IH, <- !app_assoc. reflexivity.
Qed.

Lemma typed_run env hist v :
  emitted env (chat_step (Typed v) hist) hist = [Ev (setText v) tt].
Proof.
  unfold emitted, chat_step, ChatInput, onChange, trigger.
  cbn [input_onChange]. run_step. unit_answers. reflexivity.
Qed.

Lemma empty_text_click_does_nothing_aux env hist :
  text_of hist = [] -> emitted env (submit_clicked hist) hist = [].
Proof. intros Ht. rewrite submit_clicked_unfold, Ht. reflexivity. Qed.

Lemma fulfilments_app {A} (a b : list (settled A)) :
  fulfilments (a ++ b) = fulfilments a ++ fulfilments b.
Proof.
  induction a as [|[x|r] a IH]; cbn; [reflexivity|now rewrite IH|exact IH].
Qed.

Lemma reasons_app {A} (a b : list (settled A)) :
  reasons (a ++ b) = reasons a ++ reasons b.
Proof.
  induction a as [|[x|r] a IH]; cbn; [reflexivity|exact IH|now rewrite IH].
Qed.

(** X5. A click on the submit button while the text is empty does nothing
    at all: no request, no call of [addMessage], no change of state. *)
Theorem empty_text_click_does_nothing :
  forall (env : environment) (hist : trace),
    text_of hist = [] ->
    emitted env (submit_clicked hist) hist = [].
Proof.
  intros env hist Ht. now apply empty_text_click_does_nothing_aux.
Qed.

Lemma empty_text_click_does_nothing_witness :
  emitted online (submit_clicked []) [] = [].
Proof. exact (@empty_text_click_does_nothing online [] eq_refl). Defined.

(** X6. When the request of a submit rejects, [addMessage] is not called,
    the rejection is left unhandled, and the handler does not touch the
    field: it holds what the user typed last while the request was pending
    or, if nothing was typed, the text that was submitted. *)
Theorem failed_request_keeps_draft :
  forall (env : environment) (hist : trace) (r : jsval),
    text_of hist <> [] ->
    fetch_results (emitted env (submit_clicked hist) hist) = [Rejected r] ->
    let out := emitted env (submit_clicked hist) hist in
    let request := fetch send_message_url (send_message_init (text_of hist)) in
    addMessage_calls out = []
    /\ unhandled out = [r]
    /\ text_of (hist ++ out) =
       last (typed_meanwhile env (hist ++ [Ev request (Rejected r)]))
         (text_of hist).
Proof.
  intros env hist r Hne. rewrite submit_clicked_unfold.
  destruct (text_of hist) as [|c rest] eqn:Ht; [congruence|].
  rewrite <- Ht. clear Hne. rewrite onSubmit_fetch_results.
  intros Hf. cbv zeta. rewrite onSubmit_run. injection Hf as Hf. rewrite Hf.
  repeat split.
  - project. reflexivity.
  - project. reflexivity.
  - rewrite app_comm_cons, app_assoc.
    change (hist ++ ?a :: ?l) with (hist ++ a :: l).
    rewrite text_of_app. cbn [fold_left ev_eff].
    change (Ev ?e ?x :: ?l) with ([Ev e x] ++ l).
    rewrite app_assoc, text_of_typed_events, text_of_app.
    reflexivity.
Qed.

Lemma failed_request_keeps_draft_witness :
  text_of (typed_hi ++ emitted offline (submit_clicked typed_hi) typed_hi) =
  lit "hi".
Proof.
  assert (Hne : text_of typed_hi <> []) by (vm_compute; discriminate).
  exact (proj2 (proj2 (@failed_request_keeps_draft offline typed_hi
                         failed_to_fetch Hne eq_refl))).
Defined.

(** Everything that one run of [onSubmit] leaves in the trace, by kind. *)
Lemma onSubmit_profile env hist text :
  let out := emitted env (onSubmit text) hist in
  List.length (addMessage_calls out) =
    List.length (fulfilments (fetch_results out))
  /\ Forall (fun call => fst (fst call) = text /\ snd (fst call) = user_id)
       (addMessage_calls out)
  /\ List.length (unhandled out) =
     List.length (reasons (fetch_results out)) +
     List.length (reasons (map snd (addMessage_calls out))).
Proof.
  cbv zeta. rewrite onSubmit_run.
  settle_next; [settle_next|]; project; repeat split; repeat constructor.
Qed.

Lemma onSubmit_clears_iff_fulfilled env hist text t u :
  addMessage_calls (emitted env (onSubmit text) hist) = [(t, u, Fulfilled tt)] ->
  text_of (hist ++ emitted env (onSubmit text) hist) = [].
Proof.
  rewrite onSubmit_run. settle_next; [settle_next|].
  - intros _. rewrite !app_comm_cons, !app_assoc.
    apply text_of_snoc_setText.
  - match goal with
    | |- ?calls = _ -> _ =>
        enough (E : exists o, calls = [(text, user_id, Rejected o)])
          by (destruct E as [o ->]; discriminate)
    end.
    eexists. project. reflexivity.
  - match goal with
    | |- ?calls = _ -> _ =>
        enough (E : calls = []) by (rewrite E; discriminate)
    end.
    project. reflexivity.
Qed.

(** X7. Once a submit has gone through ([addMessage] fulfilled), the field
    is empty and a second click right away sends nothing: the same message
    is not posted twice. *)
Theorem second_click_after_success_does_nothing :
  forall (env : environment) (hist : trace) (t u : jsstring),
    addMessage_calls (emitted env (submit_clicked hist) hist)
      = [(t, u, Fulfilled tt)] ->
    let out := emitted env (submit_clicked hist) hist in
    text_of (hist ++ out) = []
    /\ chat_session env [SubmitClicked; SubmitClicked] hist = out.
Proof.
  intros env hist t u. cbv zeta. cbn [chat_session chat_step].
  rewrite !app_nil_r. intros Hcall.
  assert (Hclear :
    text_of (hist ++ emitted env (submit_clicked hist) hist) = []).
  { revert Hcall. rewrite submit_clicked_unfold.
    destruct (text_of hist) as [|c rest] eqn:Ht; [discriminate|].
    rewrite <- Ht. apply onSubmit_clears_iff_fulfilled. }
  split; [exact Hclear|].
  rewrite (empty_text_click_does_nothing_aux env _ Hclear).
  now rewrite app_nil_r.
Qed.

Lemma second_click_after_success_does_nothing_witness :
  chat_session online [SubmitClicked; SubmitClicked] typed_hi =
  emitted online (submit_clicked typed_hi) typed_hi.
Proof.
  exact (proj2 (@second_click_after_success_does_nothing online typed_hi
                  (lit "hi") user_id eq_refl)).
Defined.

Lemma chat_step_http_calls env ev hist :
  http_calls (emitted env (chat_step ev hist) hist) =
  match ev with
  | Typed _ => []
  | SubmitClicked =>
      match text_of hist with
      | [] => []
      | _ :: _ => [ViaFetch send_message_url (send_message_init (text_of hist))]
      end
  end.
Proof.
  destruct ev as [v|]; [now rewrite typed_run|].
  cbn [chat_step]. rewrite submit_clicked_unfold.
  destruct (text_of hist) as [|c rest] eqn:Ht; [reflexivity|].
  rewrite <- Ht. apply onSubmit_http_calls.
Qed.

(** X8. What is typed is what is sent: after the user has typed [v], a
    click sends one request whose body is built from [v], or nothing when
    [v] is empty, whatever was in the field before. *)
Theorem typed_text_is_what_is_sent :
  forall (env : environment) (hist : trace) (v : jsstring),
    http_calls (chat_session env [Typed v; SubmitClicked] hist) =
    match v with
    | [] => []
    | _ :: _ => [ViaFetch send_message_url (send_message_init v)]
    end.
Proof.
  intros env hist v. cbn [chat_session]. rewrite app_nil_r, http_calls_app.
  rewrite !chat_step_http_calls, typed_run, text_of_snoc_setText.
  now destruct v.
Qed.

Lemma chat_step_requests env ev hist :
  let out := emitted env (chat_step ev hist) hist in
  Forall
    (fun call =>
       exists text, text <> [] /\
         call = ViaFetch send_message_url (send_message_init text))
    (http_calls out)
  /\ List.length (http_calls out) <=
     match ev with SubmitClicked => 1 | Typed _ => 0 end
  /\ toasts out = [].
Proof.
  cbv zeta. rewrite chat_step_http_calls. destruct ev as [v|].
  - rewrite typed_run. repeat split; [constructor|cbn; lia].
  - cbn [chat_step]. rewrite submit_clicked_unfold.
    destruct (text_of hist) as [|c rest] eqn:Ht.
    + repeat split; [constructor|cbn; lia].
    + rewrite <- Ht, onSubmit_toasts. repeat split; [|cbn; lia].
      repeat constructor. exists (text_of hist).
      split; [congruence|reflexivity].
Qed.

Lemma chat_step_callbacks env ev hist :
  let out := emitted env (chat_step ev hist) hist in
  List.length (addMessage_calls out) =
    List.length (fulfilments (fetch_results out))
  /\ Forall (fun call => fst (fst call) <> [] /\ snd (fst call) = user_id)
       (addMessage_calls out)
  /\ List.length (unhandled out) =
     List.length (reasons (fetch_results out)) +
     List.length (reasons (map snd (addMessage_calls out))).
Proof.
  cbv zeta. destruct ev as [v|].
  - rewrite typed_run. repeat split. constructor.
  - cbn [chat_step]. rewrite submit_clicked_unfold.
    destruct (text_of hist) as [|c rest] eqn:Ht.
    + repeat split. constructor.
    + rewrite <- Ht.
      destruct (onSubmit_profile env hist (text_of hist)) as (P1 & P2 & P3).
      repeat split; trivial.
      eapply Forall_impl; [|exact P2].
      intros call [H1 H2]. split; [|exact H2].
      intros Hempty. pose proof (eq_trans (eq_sym H1) Hempty). congruence.
Qed.

(** X9. In every session of the message box, whatever the user types and
    however the network behaves, each request that is sent carries a
    non-empty text, there are at most as many requests as clicks, and no
    toast is ever shown. *)
Theorem chat_session_requests :
  forall (env : environment) (evs : list chat_event) (hist : trace),
    let out := chat_session env evs hist in
    Forall
      (fun call =>
         exists text, text <> [] /\
           call = ViaFetch send_message_url (send_message_init text))
      (http_calls out)
    /\ List.length (http_calls out) <= submit_clicks evs
    /\ toasts out = [].
Proof.
  intros env evs. cbv zeta. unfold submit_clicks.
  induction evs as [|ev more IH]; intros hist; cbn [chat_session].
  - repeat split; [constructor|cbn; lia].
  - destruct (chat_step_requests env ev hist) as (S1 & S2 & S3).
    destruct (IH (hist ++ emitted env (chat_step ev hist) hist))
      as (IH1 & IH2 & IH3).
    rewrite http_calls_app, toasts_app, S3, IH3, length_app.
    repeat split.
    + apply Forall_app. now split.
    + cbn [filter]. destruct ev; cbn [List.length]; lia.
Qed.

(** X10. In every session of the message box, [addMessage] is called once
    for each request whose promise fulfilled and never otherwise, always
    with a non-empty text and the hard-coded user id; and every promise
    that rejected, of a request or of [addMessage], is left unhandled. *)
Theorem chat_session_callbacks :
  forall (env : environment) (evs : list chat_event) (hist : trace),
    let out := chat_session env evs hist in
    List.length (addMessage_calls out) =
      List.length (fulfilments (fetch_results out))
    /\ Forall (fun call => fst (fst call) <> [] /\ snd (fst call) = user_id)
         (addMessage_calls out)
    /\ List.length (unhandled out) =
       List.length (reasons (fetch_results out)) +
       List.length (reasons (map snd (addMessage_calls out))).
Proof.
  intros env evs. cbv zeta.
  induction evs as [|ev more IH]; intros hist; cbn [chat_session].
  - repeat split. constructor.
  - destruct (chat_step_callbacks env ev hist) as (S1 & S2 & S3).
    destruct (IH (hist ++ emitted env (chat_step ev hist) hist))
      as (IH1 & IH2 & IH3).
    rewrite addMessage_calls_app, fetch_results_app, unhandled_app.
    rewrite fulfilments_app, map_app, !reasons_app, !length_app.
    repeat split; [lia| |lia].
    apply Forall_app. now split.
Qed.

End ChatSessions.

(* ===================================================================== *)
(** ** RetractVote: the cache key and repeated clicks *)
(* ===================================================================== *)

Section RetractVoteMore.

Import RetractVote_tsx.

Variable Vote : Type.

Lemma RetractVote_swr_keys env hist message :
  swr_keys (emitted env (RetractVote Vote message) hist) =
  [lit "poll_data_" ++ template_string (opt_chain message poll_id)].
Proof. reflexivity. Qed.

(** X11. The poll is asked for by the name of the message but cached under
    the id of the poll only: two renders use the same cache key exactly
    when their messages have the same poll id, whatever their names, and a
    message without poll id uses the key of a poll called "undefined". *)
Theorem poll_cache_key_ignores_message_name :
  forall (env1 env2 : environment) (hist1 hist2 : trace)
         (message1 message2 : option Message),
    swr_keys (emitted env1 (RetractVote Vote message1) hist1) =
      [lit "poll_data_" ++ template_string (opt_chain message1 poll_id)]
    /\ (swr_keys (emitted env1 (RetractVote Vote message1) hist1) =
        swr_keys (emitted env2 (RetractVote Vote message2) hist2)
        <-> template_string (opt_chain message1 poll_id) =
            template_string (opt_chain message2 poll_id))
    /\ template_string (opt_chain (@None Message) poll_id) = lit "undefined".
Proof.
  intros env1 env2 hist1 hist2 message1 message2.
  rewrite !RetractVote_swr_keys. repeat split.
  - intros [= H]. exact H.
  - now intros ->.
Qed.

Lemma retract_clicks_step env n message hist :
  retract_clicks env (S n) message hist =
  emitted env (retract_handler message) hist ++
  retract_clicks env n message
    (hist ++ emitted env (retract_handler message) hist).
Proof. reflexivity. Qed.

(** X12. Nothing stops a second click: [n] clicks on the item send [n]
    POST calls with the same poll id, each click shows exactly one toast,
    chosen by how its own call settled, and no rejection is ever left
    unhandled. *)
Theorem every_retract_click_is_sent :
  forall (env : environment) (n : nat) (message : option Message)
         (hist : trace),
    let out := retract_clicks env n message hist in
    http_calls out =
      repeat (ViaSdkPost retract_vote_api (retract_params message)) n
    /\ List.length (post_results out) = n
    /\ toasts out = map retract_toast (post_results out)
    /\ unhandled out = [].
Proof.
  intros env n message. cbv zeta.
  induction n as [|n IH]; intros hist; [repeat split|].
  rewrite retract_clicks_step.
  destruct (IH (hist ++ emitted env (retract_handler message) hist))
    as (IH1 & IH2 & IH3 & IH4).
  rewrite http_calls_app, post_results_app, toasts_app, unhandled_app.
  rewrite retract_handler_http_calls, retract_handler_post_results,
    retract_handler_toasts, retract_handler_unhandled.
  rewrite IH1, IH3, IH4. cbn [app repeat map List.length].
  rewrite IH2. repeat split.
Qed.

(** X13. Nothing checks that the message has a poll id: when the fetched
    payload has a vote of the user, the item is rendered for such a
    message too, and its click posts [poll_id: undefined]. *)
Theorem retract_without_poll_id_still_posts :
  forall (message : option Message) (fetched : option (GetPollResponse Vote))
         (env : environment) (hist : trace),
    opt_chain message poll_id = None ->
    render_condition fetched = true ->
    menu_item (RetractVote_returns message fetched) =
      Some (retract_handler message, item_disabled fetched, item_children)
    /\ http_calls (emitted env (retract_handler message) hist) =
       [ViaSdkPost retract_vote_api (JObj [(lit "poll_id", JUndefined)])].
Proof.
  intros message fetched env hist Hid Hc.
  rewrite returns_item_or_nothing, Hc, retract_handler_http_calls.
  unfold retract_params. rewrite Hid. split; reflexivity.
Qed.

End RetractVoteMore.

Lemma retract_without_poll_id_still_posts_witness :
  http_calls
    (emitted offline
       (RetractVote_tsx.retract_handler
          (Some {| RetractVote_tsx.name := lit "msg-0002";
                   RetractVote_tsx.poll_id := None |})) []) =
  [ViaSdkPost RetractVote_tsx.retract_vote_api
     (JObj [(lit "poll_id", JUndefined)])].
Proof.
  exact (proj2 (@retract_without_poll_id_still_posts unit
                  (Some {| RetractVote_tsx.name := lit "msg-0002";
                           RetractVote_tsx.poll_id := None |})
                  (Some RetractVote_tsx.sample_voted_disabled)
                  offline [] eq_refl eq_refl)).
Defined.

(* ===================================================================== *)
(** ** Sessions of the modal *)
(* ===================================================================== *)

Section ModalSessions.

Import AddChannelMemberModal_tsx.

Variable validate : FormProps -> bool.

Lemma modal_session_app env evs1 evs2 m hist :
  modal_session validate env (evs1 ++ evs2) m hist =
  modal_session validate env evs1 m hist ++
  modal_session validate env evs2 (mounted_after m evs1)
    (hist ++ modal_session validate env evs1 m hist).
Proof.
  revert m hist.
  induction evs1 as [|ev more IH]; intros m hist;
    cbn [app modal_session mounted_after fold_left].
  - now rewrite app_nil_r.
  - unfold mounted_after in IH. rewrite IH, <- !app_assoc. reflexivity.
Qed.

Lemma modal_cancel_run env hist reset_id props form :
  emitted env
    (cancel_onClick (AddChannelMemberModal validate reset_id props form))
    hist = [Ev onClose tt].
Proof.
  unfold emitted, AddChannelMemberModal, trigger. cbn [cancel_onClick].
  run_step. unit_answers. reflexivity.
Qed.

(** What one event of a session leaves in the trace. *)
Lemma modal_step_run env m ev hist :
  emitted env (modal_step validate m ev hist) hist =
  match ev with
  | Rendered p rid =>
      if deps_changed (last_deps m) (isOpen p, rid) then [Ev form_reset tt]
      else []
  | Picked v => [Ev (form_setValue v) tt]
  | SavePressed =>
      match m with
      | Some _ =>
          if validate (form_values hist) then
            [Ev (console_log
                   [to_js (form_values hist);
                    to_js_members (add_members (form_values hist))]) tt;
             Ev onClose tt]
          else []
      | None => []
      end
  | CancelPressed =>
      match m with Some _ => [Ev onClose tt] | None => [] end
  end.
Proof.
  destruct ev as [p rid|v| |]; cbn [modal_step].
  - apply modal_effect_run.
  - unfold emitted, trigger. run_step. unit_answers. reflexivity.
  - destruct m as [[p rid]|]; [apply modal_submit_run|reflexivity].
  - destruct m as [[p rid]|]; [apply modal_cancel_run|reflexivity].
Qed.

(** X14. Whatever happens to the modal (renders, picks, Save, Cancel, in
    any order and in any environment) it sends no network call, shows no
    toast and leaves no rejection unhandled: the members that were picked
    never leave the browser. *)
Theorem modal_session_sends_nothing :
  forall (env : environment) (evs : list modal_event) (m : mounted)
         (hist : trace),
    let out := modal_session validate env evs m hist in
    http_calls out = [] /\ toasts out = [] /\ unhandled out = [].
Proof.
  intros env evs. cbv zeta.
  induction evs as [|ev more IH]; intros m hist; cbn [modal_session];
    [repeat split|].
  destruct (IH (modal_next m ev)
              (hist ++ emitted env (modal_step validate m ev hist) hist))
    as (IH1 & IH2 & IH3).
  rewrite http_calls_app, toasts_app, unhandled_app, IH1, IH2, IH3.
  rewrite modal_step_run.
  destruct ev as [p rid|v| |]; try destruct m as [[p0 rid0]|];
    cbn [last_deps];
    try destruct (deps_changed _ _); try destruct (validate _);
    repeat split.
Qed.

Lemma same_deps_unchanged d p rid :
  same_deps d (Rendered p rid) = true ->
  deps_changed (Some d) (isOpen p, rid) = false /\ (isOpen p, rid) = d.
Proof.
  destruct d as [o r]. cbn [same_deps deps_changed fst snd].
  intros H. apply andb_prop in H as [Ho Hr].
  apply Bool.eqb_prop in Ho. apply Nat.eqb_eq in Hr. subst o r.
  now rewrite Bool.eqb_reflx, Nat.eqb_refl.
Qed.

Lemma picks_survive_from env evs :
  forall (m : mounted) (d : deps) (hist : trace),
    last_deps m = Some d ->
    forallb (same_deps d) evs = true ->
    add_members
      (form_values (hist ++ modal_session validate env evs m hist)) =
    last_pick evs (add_members (form_values hist)).
Proof.
  induction evs as [|ev more IH]; intros m d hist Hm Hall;
    cbn [modal_session last_pick fold_left].
  - now rewrite app_nil_r.
  - cbn [forallb] in Hall. apply andb_prop in Hall as [Hev Hall].
    rewrite app_assoc, modal_step_run.
    destruct m as [[p0 rid0]|]; [|discriminate].
    destruct ev as [p rid|v| |]; cbn [modal_next].
    + destruct (same_deps_unchanged d p rid Hev) as [Hsame Hd].
      rewrite Hm, Hsame, app_nil_r.
      apply IH with d; [now rewrite <- Hd|exact Hall].
    + rewrite (IH _ d _ Hm Hall). unfold last_pick. f_equal.
      now rewrite form_values_app.
    + rewrite (IH _ d _ Hm Hall). unfold last_pick. f_equal.
      rewrite form_values_app. now destruct (validate _).
    + rewrite (IH _ d _ Hm Hall). unfold last_pick. f_equal.
      now rewrite form_values_app.
Qed.

(** X15. While the modal is rendered with the same [isOpen] and the same
    [reset], the form holds the last pick of the user (or what it held
    before, if nothing was picked): re-renders, Save and Cancel leave the
    selection alone. *)
Theorem picks_survive_while_deps_stay :
  forall (env : environment) (evs : list modal_event)
         (props : AddChannelMemberModalProps) (reset_id : nat)
         (hist : trace),
    forallb (same_deps (isOpen props, reset_id)) evs = true ->
    add_members
      (form_values
         (hist ++
          modal_session validate env evs (Some (props, reset_id)) hist)) =
    last_pick evs (add_members (form_values hist)).
Proof.
  intros env evs props reset_id hist Hall.
  now apply picks_survive_from with (isOpen props, reset_id).
Qed.

(** X16. The effect also depends on [reset]: when the form library hands
    out another [reset] function at a render, the form is reset although
    [isOpen] has not changed, and the selection is lost. *)
Theorem new_reset_identity_resets_form :
  forall (env : environment) (props : AddChannelMemberModalProps)
         (form : FormProps) (old_id reset_id : nat) (hist : trace),
    old_id <> reset_id ->
    let out :=
      emitted env
        (effect (AddChannelMemberModal validate reset_id props form)
           (Some (isOpen props, old_id))) hist in
    out = [Ev form_reset tt]
    /\ form_values (hist ++ out) = defaultValues.
Proof.
  intros env props form old_id reset_id hist Hne. cbv zeta.
  rewrite modal_effect_run. unfold deps_changed. cbn [fst snd].
  rewrite Bool.eqb_reflx. apply Nat.eqb_neq in Hne. rewrite Hne.
  cbn [andb negb]. rewrite form_values_app. now split.
Qed.

(** X17. Whatever the user picked and pressed before, a render at which
    [isOpen] differs from the last render leaves the form at its default
    values: after closing or reopening, [add_members] is [null]. *)
Theorem flipping_isOpen_ends_every_session_at_defaults :
  forall (env : environment) (evs : list modal_event) (m : mounted)
         (props : AddChannelMemberModalProps) (reset_id : nat)
         (hist : trace),
    isOpen_changed (last_deps (mounted_after m evs)) (isOpen props) = true ->
    form_values
      (hist ++
       modal_session validate env (evs ++ [Rendered props reset_id]) m hist)
    = defaultValues.
Proof.
  intros env evs m props reset_id hist Hchg.
  rewrite modal_session_app. cbn [modal_session].
  rewrite app_nil_r, modal_step_run.
  rewrite (isOpen_changed_deps reset_id _ _ Hchg).
  now rewrite !app_assoc, form_values_app.
Qed.

End ModalSessions.

Lemma picks_survive_while_deps_stay_witness :
  AddChannelMemberModal_tsx.add_members
    (AddChannelMemberModal_tsx.form_values
       ([] ++
        AddChannelMemberModal_tsx.modal_session (fun _ => true) online
          [AddChannelMemberModal_tsx.Picked (Some [lit "alice@example.com"]);
           AddChannelMemberModal_tsx.SavePressed;
           AddChannelMemberModal_tsx.Rendered
             AddChannelMemberModal_tsx.sample_props 0;
           AddChannelMemberModal_tsx.CancelPressed]
          (Some (AddChannelMemberModal_tsx.sample_props, 0)) [])) =
  Some [lit "alice@example.com"].
Proof.
  exact (@picks_survive_while_deps_stay (fun _ => true) online
           [AddChannelMemberModal_tsx.Picked (Some [lit "alice@example.com"]);
            AddChannelMemberModal_tsx.SavePressed;
            AddChannelMemberModal_tsx.Rendered
              AddChannelMemberModal_tsx.sample_props 0;
            AddChannelMemberModal_tsx.CancelPressed]
           AddChannelMemberModal_tsx.sample_props 0 [] eq_refl).
Defined.

Lemma new_reset_identity_resets_form_witness :
  AddChannelMemberModal_tsx.form_values
    (AddChannelMemberModal_tsx.picked_alice ++
     emitted online
       (AddChannelMemberModal_tsx.effect
          (AddChannelMemberModal_tsx.AddChannelMemberModal (fun _ => true) 1
             AddChannelMemberModal_tsx.sample_props
             (AddChannelMemberModal_tsx.form_values
                AddChannelMemberModal_tsx.picked_alice))
          (Some (true, 0)))
       AddChannelMemberModal_tsx.picked_alice) =
  AddChannelMemberModal_tsx.defaultValues.
Proof.
  assert (Hne : 0 <> 1) by lia.
  exact (proj2 (@new_reset_identity_resets_form (fun _ => true) online
                  AddChannelMemberModal_tsx.sample_props
                  (AddChannelMemberModal_tsx.form_values
                     AddChannelMemberModal_tsx.picked_alice)
                  0 1 AddChannelMemberModal_tsx.picked_alice Hne)).
Defined.

Lemma flipping_isOpen_ends_every_session_at_defaults_witness :
  AddChannelMemberModal_tsx.form_values
    ([] ++
     AddChannelMemberModal_tsx.modal_session (fun _ => true) online
       ([AddChannelMemberModal_tsx.Rendered
           AddChannelMemberModal_tsx.sample_props 0;
         AddChannelMemberModal_tsx.Picked (Some [lit "alice@example.com"]);
         AddChannelMemberModal_tsx.SavePressed] ++
        [AddChannelMemberModal_tsx.Rendered
           {| AddChannelMemberModal_tsx.isOpen := false;
              AddChannelMemberModal_tsx.channel_name := lit "general";
              AddChannelMemberModal_tsx.type := lit "Public";
              AddChannelMemberModal_tsx.channel_id := lit "general-01" |} 0])
       None []) =
  AddChannelMemberModal_tsx.defaultValues.
Proof.
  exact (@flipping_isOpen_ends_every_session_at_defaults (fun _ => true)
           online
           [AddChannelMemberModal_tsx.Rendered
              AddChannelMemberModal_tsx.sample_props 0;
            AddChannelMemberModal_tsx.Picked (Some [lit "alice@example.com"]);
            AddChannelMemberModal_tsx.SavePressed]
           None
           {| AddChannelMemberModal_tsx.isOpen := false;
              AddChannelMemberModal_tsx.channel_name := lit "general";
              AddChannelMemberModal_tsx.type := lit "Public";
              AddChannelMemberModal_tsx.channel_id := lit "general-01" |}
           0 [] eq_refl).
Defined.

(* ===================================================================== *)
(** ** customStyles: which definition of a property wins *)
(* ===================================================================== *)

Section StyleFacts.

Import AddChannelMemberModal_tsx.

Variable pfp : jsval -> Obj.props.
Variable fallbackPfp : jsstring -> Obj.props.

(** In [{...a, ...b}] the properties of [b] win. *)
Lemma get_app (k : jsstring) (a b : Obj.props) :
  Obj.get k (a ++ b) =
  match Obj.get k b with
  | Some v => Some v
  | None => Obj.get k a
  end.
Proof.
  induction a as [|[k' v] a IH]; cbn [app Obj.get].
  - now destruct (Obj.get k b).
  - rewrite IH. now destruct (Obj.get k b).
Qed.

(** [string_eqb] decides equality of strings. *)
Lemma string_eqb_eq (a b : jsstring) : string_eqb a b = true <-> a = b.
Proof.
  unfold string_eqb. destruct (list_eq_dec N.eq_dec a b) as [He|Hne].
  - now split.
  - split; [discriminate|]. intros He. now destruct Hne.
Qed.

Example selected_option_is_highlighted :
  forall chakraStyles member,
    Obj.get (lit "backgroundColor")
      (option_ (customStyles pfp fallbackPfp) chakraStyles
         {| isSelected := true; data := member |}) =
    Some (JStr (lit "#E2E8F0")).
Proof.
  intros chakraStyles member. cbn [option_ customStyles].
  unfold Obj.spread_if. cbn [isSelected]. rewrite !get_app. reflexivity.
Qed.

(** X18. The style functions for the control, the menu and the "no
    options" message fix their own properties whatever the base styles
    say, and hand every other property of the base styles through. *)
Theorem fixed_styles_override_base :
  forall (chakraStyles : Obj.props) (k : jsstring),
    Obj.get k (control (customStyles pfp fallbackPfp) chakraStyles) =
      (if string_eqb (lit "fontSize") k then Some (JStr (lit "sm"))
       else if string_eqb (lit "width") k then Some (JStr (lit "100%"))
       else if string_eqb (lit "backgroundColor") k
            then Some (JStr (lit "white"))
       else Obj.get k chakraStyles)
    /\ Obj.get k (menu (customStyles pfp fallbackPfp) chakraStyles) =
      (if string_eqb (lit "borderWidth") k then Some (JStr (lit "1px"))
       else if string_eqb (lit "width") k then Some (JStr (lit "100%"))
       else if string_eqb (lit "borderRadius") k then Some (JStr (lit "md"))
       else Obj.get k chakraStyles)
    /\ Obj.get k (noOptionsMessage (customStyles pfp fallbackPfp) chakraStyles) =
      (if string_eqb (lit "fontSize") k then Some (JStr (lit "sm"))
       else if string_eqb (lit "width") k then Some (JStr (lit "100%"))
       else Obj.get k chakraStyles).
Proof.
  intros chakraStyles k.
  cbn [control menu noOptionsMessage customStyles].
  rewrite !get_app. cbn [Obj.get].
  repeat split;
    repeat match goal with
    | |- context [string_eqb ?a k] => destruct (string_eqb a k)
    end; reflexivity.
Qed.

(** X19. The style of an option, property by property: the highlight of a
    selected option wins over everything; then [fontSize] and [width],
    which neither the avatar styles nor the base styles can change; then
    the avatar styles, taken from [pfp] when the member has an image and
    from [fallbackPfp] of the label otherwise; then the base styles. *)
Theorem option_style_precedence :
  forall (chakraStyles : Obj.props) (state : OptionState) (k : jsstring),
    Obj.get k (option_ (customStyles pfp fallbackPfp) chakraStyles state) =
      if isSelected state && string_eqb (lit "color") k
      then Some (JStr (lit "black"))
      else if isSelected state && string_eqb (lit "backgroundColor") k
      then Some (JStr (lit "#E2E8F0"))
      else if string_eqb (lit "fontSize") k then Some (JStr (lit "sm"))
      else if string_eqb (lit "width") k then Some (JStr (lit "100%"))
      else
        match
          Obj.get k
            (if truthy (image (data state)) then pfp (image (data state))
             else fallbackPfp (label (data state)))
        with
        | Some v => Some v
        | None => Obj.get k chakraStyles
        end.
Proof.
  intros chakraStyles state k.
  cbn [option_ customStyles]. unfold avatar, Obj.spread_if.
  rewrite !get_app.
  destruct (isSelected state); cbn [Obj.get andb];
    repeat match goal with
    | |- context [string_eqb ?a k] => destruct (string_eqb a k)
    end; reflexivity.
Qed.

End StyleFacts.
